(** * Verification of the image-captioning application (src/app.py)

    A shallow embedding of [ImageCaptioningApp]: the device selector
    ([_get_device]), the lazy model loader ([load_model]) and the caption
    service ([generate_caption]), followed by the properties of the
    specification that are settled against them.

    The external collaborators (the Hugging Face [pipeline] constructor,
    the pipeline object that is called on an image, PIL's [Image.convert])
    are arbitrary functions of the history of calls made so far; a theorem
    quantified over them holds for every behaviour of the collaborators. *)

From Stdlib Require Import NArith ZArith List Bool String Ascii Lia.
From stdpp Require Import base option list gmap.
Import ListNotations.

Local Open Scope N_scope.

(** ** Python strings *)

(** A Python [str] is a sequence of Unicode code points. *)
Abbreviation str := (list N).

Module PyStr.

(** Text of a literal made of ASCII characters only. *)
Definition ascii_text (s : string) : str :=
  map N_of_ascii (list_ascii_of_string s).

(** [str.isspace] on one code point, the set that [str.strip()] removes:
    the ASCII controls 0x09-0x0D and 0x1C-0x1F, the space, and the
    Unicode separators. *)
Definition is_space (c : N) : bool :=
  ((0x09 <=? c) && (c <=? 0x0D))
  || ((0x1C <=? c) && (c <=? 0x20))
  || (c =? 0x85) || (c =? 0xA0) || (c =? 0x1680)
  || ((0x2000 <=? c) && (c <=? 0x200A))
  || (c =? 0x2028) || (c =? 0x2029) || (c =? 0x202F)
  || (c =? 0x205F) || (c =? 0x3000).

Fixpoint lstrip (s : str) : str :=
  match s with
  | c :: rest => if is_space c then lstrip rest else s
  | [] => []
  end.

Definition rstrip (s : str) : str := rev (lstrip (rev s)).

(** [s.strip()] *)
Definition strip (s : str) : str := rstrip (lstrip s).

(** [str.lower] on one code point.  The letters A-Z go to a-z.  Other
    code points are kept.  [str.lower] also maps the capitals outside
    ASCII, to code points outside ASCII with two exceptions: U+212A goes
    to k, and U+0130 to i followed by U+0307.  Neither can take part in
    an occurrence of "out of memory" or "connection" (no k; no i before
    U+0307), so the two tests [pat in error_msg.lower()] of
    [generate_caption] have the same result here as in Python. *)
Definition lower_cp (c : N) : N :=
  if (0x41 <=? c) && (c <=? 0x5A) then c + 0x20 else c.

(** [s.lower()] *)
Definition lower (s : str) : str := map lower_cp s.

(** [s.startswith(p)] *)
Fixpoint startswith (p s : str) : bool :=
  match p, s with
  | [], _ => true
  | _ :: _, [] => false
  | a :: p', b :: s' => (a =? b) && startswith p' s'
  end.

(** [p in s]: [p] occurs in [s] as a contiguous run of code points. *)
Fixpoint contains (p s : str) : bool :=
  startswith p s ||
  match s with
  | [] => false
  | _ :: s' => contains p s'
  end.

End PyStr.

Import PyStr.

(** ** Exceptions, values and collaborators *)

(** A raised Python exception: whether its class derives from [Exception]
    (what an [except Exception] clause tests; [KeyboardInterrupt],
    [SystemExit] and [GeneratorExit] do not) and the text [str(e)]. *)
Record PyExn := { exn_is_Exception : bool; exn_str : str }.

Inductive outcome (A : Type) : Type :=
| Return (a : A)
| Raise (e : PyExn).
Arguments Return {A} a.
Arguments Raise {A} e.

(** A PIL image: its [mode] attribute and its content, which the
    application never inspects. *)
Record Image := { mode : str; pixels : N }.

(** One element of the sequence returned by the pipeline: a dict, from
    keys to texts. *)
Abbreviation Candidate := (gmap (list N) (list N)).

(** Identity of a pipeline object returned by [pipeline(...)]. *)
Definition Handle := N.

(** What the application does to the outside, in order of occurrence.
    [EvLoadModel] marks an entry into [load_model]; the other events are
    the calls to the collaborators with their arguments. *)
Inductive event :=
| EvLoadModel
| EvPipeline (model : str) (dev : Z)
| EvConvert (img : Image) (m : str)
| EvInfer (h : Handle) (img : Image).

Abbreviation trace := (list event).

(** The collaborators.  Each one sees the trace of what happened before
    the call, so that its answer may depend on the call number, on the
    device, on earlier failures, and so on. *)
Record collaborators := {
  cuda_is_available : bool;
  pipeline : trace -> str -> Z -> outcome Handle;
  call_pipeline : trace -> Handle -> Image -> outcome (list Candidate);
  convert : trace -> Image -> str -> outcome Image
}.

(** The devices passed to [pipeline(...)], oldest first. *)
Definition constructions (t : trace) : list Z :=
  omap (fun ev => match ev with EvPipeline _ d => Some d | _ => None end) t.

(** The images passed to the pipeline object, oldest first. *)
Definition inferences (t : trace) : list Image :=
  omap (fun ev => match ev with EvInfer _ i => Some i | _ => None end) t.

(** The number of entries into [load_model]. *)
Definition load_model_calls (t : trace) : nat :=
  length (omap (fun ev => match ev with EvLoadModel => Some tt | _ => None end) t).

(** ** The application object and the effects of its methods *)

(** The attributes of an [ImageCaptioningApp] instance.  The device is
    [0] for the GPU and [-1] for the CPU, as in the source. *)
Record App := {
  caption_pipeline : option Handle;
  device : Z;
  model_name : str
}.

(** The instance [self] together with the trace of calls made so far. *)
Record state := { self : App; hist : trace }.

(** A method body: it runs from a state, returns or raises, and leaves a
    state.  What was assigned before a [raise] stays assigned. *)
Definition M (A : Type) : Type := state -> outcome A * state.

Definition ret {A} (a : A) : M A := fun s => (Return a, s).

Definition bind {A B} (m : M A) (k : A -> M B) : M B :=
  fun s => match m s with
           | (Return a, s') => k a s'
           | (Raise e, s') => (Raise e, s')
           end.

Notation "x <- m ;; k" := (bind m (fun x => k))
  (at level 100, m at next level, right associativity).
Notation "m ;;; k" := (bind m (fun _ => k))
  (at level 100, right associativity).

(** [try: body except Exception as e: handler].  An exception whose class
    does not derive from [Exception] passes through the clause. *)
Definition try_except {A} (body : M A) (handler : PyExn -> M A) : M A :=
  fun s => match body s with
           | (Return a, s') => (Return a, s')
           | (Raise e, s') =>
               if exn_is_Exception e then handler e s' else (Raise e, s')
           end.

Definition get_self : M App := fun s => (Return (self s), s).

Definition set_caption_pipeline (h : Handle) : M unit :=
  fun s => (Return tt,
            {| self := {| caption_pipeline := Some h;
                          device := device (self s);
                          model_name := model_name (self s) |};
               hist := hist s |}).

Definition set_device (d : Z) : M unit :=
  fun s => (Return tt,
            {| self := {| caption_pipeline := caption_pipeline (self s);
                          device := d;
                          model_name := model_name (self s) |};
               hist := hist s |}).

(** The state after one more event. *)
Definition record (ev : event) (s : state) : state :=
  {| self := self s; hist := hist s ++ [ev] |}.

Definition emit (ev : event) : M unit :=
  fun s => (Return tt, record ev s).

(** A call to a collaborator: it answers from the trace before the call,
    and the call is recorded whether it returns or raises. *)
Definition call {A} (ev : event) (answer : trace -> outcome A) : M A :=
  fun s => (answer (hist s), record ev s).

(** ** The messages of [generate_caption] *)

Module Msg.

Definition cross_mark : str := [0x274C].   (* the cross mark emoji *)
Definition bullet : str := [0x2022].       (* the bullet *)
Definition bullseye : str := [0x1F3AF].    (* the direct-hit emoji *)
Definition nl : str := [0x0A].

Definition upload : str :=
  cross_mark ++ ascii_text " Please upload an image first!".

Definition load_failed : str :=
  cross_mark ++ ascii_text " Failed to load AI model. This might be due to:" ++ nl
  ++ bullet ++ ascii_text " Internet connection issues" ++ nl
  ++ bullet ++ ascii_text " Insufficient memory" ++ nl
  ++ bullet ++ ascii_text " Missing dependencies" ++ nl ++ nl
  ++ ascii_text "Please try restarting the application.".

Definition success_marker : str := bullseye ++ ascii_text " ".

Definition empty_result : str :=
  cross_mark ++ ascii_text " Could not generate a caption for this image.".

Definition out_of_memory : str :=
  cross_mark ++ ascii_text " Out of memory error. Try:" ++ nl
  ++ bullet ++ ascii_text " Using a smaller image" ++ nl
  ++ bullet ++ ascii_text " Restarting the application" ++ nl
  ++ bullet ++ ascii_text " Using CPU instead of GPU".

Definition network : str :=
  cross_mark
  ++ ascii_text " Network error. Please check your internet connection.".

Definition processing_prefix : str :=
  cross_mark ++ ascii_text " Processing error: ".

End Msg.

Definition RGB : str := ascii_text "RGB".
Definition generated_text : str := ascii_text "generated_text".
Definition pat_out_of_memory : str := ascii_text "out of memory".
Definition pat_connection : str := ascii_text "connection".

(** [KeyError(key)]; [str] of it is the [repr] of the key. *)
Definition KeyError (key : str) : PyExn :=
  {| exn_is_Exception := true;
     exn_str := ascii_text "'" ++ key ++ ascii_text "'" |}.

(** The [TypeError] of calling [None]. *)
Definition TypeError_not_callable : PyExn :=
  {| exn_is_Exception := true;
     exn_str := ascii_text "'NoneType' object is not callable" |}.

(** ** The methods of [ImageCaptioningApp] *)

Section Program.

Variable env : collaborators.

(** [_get_device] *)
Definition _get_device : Z :=
  if cuda_is_available env then 0%Z else (-1)%Z.

(** [__init__] *)
Definition init : App :=
  {| caption_pipeline := None;
     device := _get_device;
     model_name := ascii_text "Salesforce/blip-image-captioning-base" |}.

(** [pipeline(task="image-to-text", model=..., device=d)] *)
Definition new_pipeline (model : str) (d : Z) : M Handle :=
  call (EvPipeline model d) (fun t => pipeline env t model d).

(** [load_model].  The inner [try] either returns [True] or falls
    through to the final [return False]; [None] stands for falling
    through.  The logger calls have no effect on the result. *)
Definition load_model : M bool :=
  emit EvLoadModel ;;;
  me <- get_self ;;
  match caption_pipeline me with
  | Some _ => ret true
  | None =>
      try_except
        (h <- new_pipeline (model_name me) (device me) ;;
         set_caption_pipeline h ;;;
         ret true)
        (fun e =>
           me <- get_self ;;
           returned <-
             (if (device me =? 0)%Z then
                try_except
                  (h <- new_pipeline (model_name me) (-1) ;;
                   set_caption_pipeline h ;;;
                   set_device (-1) ;;;
                   ret (Some true))
                  (fun e2 => ret None)
              else ret None) ;;
           match returned with
           | Some b => ret b
           | None => ret false
           end)
  end.

(** [image.convert(m)] *)
Definition image_convert (image : Image) (m : str) : M Image :=
  call (EvConvert image m) (fun t => convert env t image m).

(** [self.caption_pipeline(image)] *)
Definition run_caption_pipeline (image : Image) : M (list Candidate) :=
  me <- get_self ;;
  match caption_pipeline me with
  | Some h => call (EvInfer h image) (fun t => call_pipeline env t h image)
  | None => fun s => (Raise TypeError_not_callable, s)
  end.

(** [d[key]] on a dict *)
Definition getitem (d : Candidate) (key : str) : M str :=
  match d !! key with
  | Some v => ret v
  | None => fun s => (Raise (KeyError key), s)
  end.

(** The [try] block of [generate_caption]. *)
Definition caption_try (image : Image) : M str :=
  image <- (if negb (bool_decide (mode image = RGB))
            then image_convert image RGB
            else ret image) ;;
  result <- run_caption_pipeline image ;;
  match result with
  | first :: _ =>
      caption <- getitem first generated_text ;;
      let caption := strip caption in
      ret (Msg.success_marker ++ caption)
  | [] => ret Msg.empty_result
  end.

(** The [except Exception as e] block of [generate_caption]. *)
Definition caption_except (e : PyExn) : M str :=
  let error_msg := exn_str e in
  if contains pat_out_of_memory (lower error_msg)
  then ret Msg.out_of_memory
  else if contains pat_connection (lower error_msg)
  then ret Msg.network
  else ret (Msg.processing_prefix ++ error_msg).

(** [generate_caption]; [None] is the absent image. *)
Definition generate_caption (image : option Image) : M str :=
  match image with
  | None => ret Msg.upload
  | Some image =>
      loaded <- load_model ;;
      if negb loaded then ret Msg.load_failed
      else try_except (caption_try image) caption_except
  end.

End Program.

(** ** Several callers of [load_model] at once

    [load_model] contains no lock and no once-only primitive: between
    two of its statements another caller may run.  A caller is at one of
    the program points below; running a caller for one step executes the
    statement at its program point on the shared instance. *)

Module Threads.

Inductive pc :=
| AtEntry                         (* before [if self.caption_pipeline is not None] *)
| AtConstruct                     (* before the first [pipeline(...)] *)
| AtStore (h : Handle)            (* before [self.caption_pipeline = ] its result *)
| AtHandler                       (* before [if self.device == 0] *)
| AtRetry                         (* before the second [pipeline(...)] *)
| AtRetryStore (h : Handle)       (* before [self.caption_pipeline = ] its result *)
| AtSetDevice                     (* before [self.device = -1] *)
| AtReturn (b : bool)             (* before [return b] *)
| Finished (r : outcome bool) (seen : option Handle).

Section Step.

Variable env : collaborators.

Definition store_pipeline (h : Handle) (s : state) : state :=
  snd (set_caption_pipeline h s).

(** One statement of [load_model].  [Finished r seen] keeps the outcome
    of the call and the handle that is cached when the call returns, the
    one this caller goes on to use. *)
Definition step (p : pc) (s : state) : pc * state :=
  match p with
  | AtEntry =>
      match caption_pipeline (self s) with
      | Some _ => (AtReturn true, record EvLoadModel s)
      | None => (AtConstruct, record EvLoadModel s)
      end
  | AtConstruct =>
      let m := model_name (self s) in
      let d := device (self s) in
      match pipeline env (hist s) m d with
      | Return h => (AtStore h, record (EvPipeline m d) s)
      | Raise e =>
          if exn_is_Exception e
          then (AtHandler, record (EvPipeline m d) s)
          else (Finished (Raise e) (caption_pipeline (self s)),
                record (EvPipeline m d) s)
      end
  | AtStore h => (AtReturn true, store_pipeline h s)
  | AtHandler =>
      if (device (self s) =? 0)%Z then (AtRetry, s) else (AtReturn false, s)
  | AtRetry =>
      let m := model_name (self s) in
      match pipeline env (hist s) m (-1) with
      | Return h => (AtRetryStore h, record (EvPipeline m (-1)) s)
      | Raise e =>
          if exn_is_Exception e
          then (AtReturn false, record (EvPipeline m (-1)) s)
          else (Finished (Raise e) (caption_pipeline (self s)),
                record (EvPipeline m (-1)) s)
      end
  | AtRetryStore h => (AtSetDevice, store_pipeline h s)
  | AtSetDevice => (AtReturn true, snd (set_device (-1) s))
  | AtReturn b => (Finished (Return b) (caption_pipeline (self s)), s)
  | Finished r seen => (Finished r seen, s)
  end.

(** One caller alone, for at most [fuel] statements. *)
Fixpoint run_alone (fuel : nat) (p : pc) (s : state) : pc * state :=
  match fuel with
  | O => (p, s)
  | S fuel' => let '(p', s') := step p s in run_alone fuel' p' s'
  end.

(** Several callers: the schedule names the caller that runs next. *)
Fixpoint run (schedule : list nat) (callers : list pc) (s : state)
  : list pc * state :=
  match schedule with
  | [] => (callers, s)
  | i :: rest =>
      match callers !! i with
      | Some p =>
          let '(p', s') := step p s in run rest (<[i := p']> callers) s'
      | None => run rest callers s
      end
  end.

(** The callers run one after the other: each call is complete before
    the next one starts.  No path through [load_model] has more than
    seven statements. *)
Definition one_by_one (n : nat) : list nat :=
  flat_map (fun i => replicate 7 i) (seq 0 n).

(** Two callers that both pass the test of the cached pipeline before
    either of them stores one. *)
Definition race : list nat := [0; 1; 0; 1; 0; 0; 1; 1]%nat.

End Step.

End Threads.

(** ** Stub collaborators *)

Module Stub.

Definition RuntimeError (msg : string) : PyExn :=
  {| exn_is_Exception := true; exn_str := ascii_text msg |}.

Definition KeyboardInterrupt : PyExn :=
  {| exn_is_Exception := false; exn_str := [] |}.

(** A new pipeline object each time: the number of earlier constructions. *)
Definition fresh_handle (t : trace) : Handle :=
  N.of_nat (length (constructions t)).

(** PIL's conversion: the requested mode, some other content. *)
Definition pil_convert (t : trace) (i : Image) (m : str) : outcome Image :=
  Return {| mode := m; pixels := pixels i + 1 |}.

Definition captions (text : string) : list Candidate :=
  [ {[ generated_text := ascii_text text ]} ].

(** Everything works, on a machine without GPU, and every image is
    described by [text]. *)
Definition working (text : string) : collaborators :=
  {| cuda_is_available := false;
     pipeline := fun t _ _ => Return (fresh_handle t);
     call_pipeline := fun _ _ _ => Return (captions text);
     convert := pil_convert |}.

(** A GPU is present but construction fails on it. *)
Definition gpu_broken : collaborators :=
  {| cuda_is_available := true;
     pipeline := fun t _ d =>
       if (d =? 0)%Z then Raise (RuntimeError "CUDA error: no kernel image")
       else Return (fresh_handle t);
     call_pipeline := fun _ _ _ => Return (captions "a cat");
     convert := pil_convert |}.

(** Construction fails on every device. *)
Definition all_broken : collaborators :=
  {| cuda_is_available := true;
     pipeline := fun _ _ _ => Raise (RuntimeError "Connection refused");
     call_pipeline := fun _ _ _ => Return (captions "a cat");
     convert := pil_convert |}.

(** Inference returns no candidate. *)
Definition speechless : collaborators :=
  {| cuda_is_available := false;
     pipeline := fun t _ _ => Return (fresh_handle t);
     call_pipeline := fun _ _ _ => Return [];
     convert := pil_convert |}.

(** Inference raises [e]. *)
Definition failing (e : PyExn) : collaborators :=
  {| cuda_is_available := false;
     pipeline := fun t _ _ => Return (fresh_handle t);
     call_pipeline := fun _ _ _ => Raise e;
     convert := pil_convert |}.

(** Inference fails: out of memory, no network, an unreadable file, and
    a message with both patterns. *)
Definition out_of_memory : collaborators :=
  failing (RuntimeError "CUDA Out Of Memory. Tried to allocate 2 GiB").
Definition offline : collaborators :=
  failing (RuntimeError "HTTPSConnectionPool: Max retries exceeded").
Definition unreadable : collaborators :=
  failing (RuntimeError "cannot identify image file").
Definition both_patterns : collaborators :=
  failing (RuntimeError "Connection lost: CUDA out of memory").

(** The events of a first request on a machine without GPU, before the
    pipeline is called on an RGB image. *)
Definition first_request : trace :=
  [EvLoadModel;
   EvPipeline (ascii_text "Salesforce/blip-image-captioning-base") (-1)%Z].

Definition photo : Image := {| mode := RGB; pixels := 42 |}.
Definition scan : Image := {| mode := ascii_text "L"; pixels := 7 |}.

(** The process right after [ImageCaptioningApp()]. *)
Definition start (env : collaborators) : state :=
  {| self := init env; hist := [] |}.

End Stub.

(** ** Case-insensitive occurrence, stated without [lower] *)

(** [m] is the letter [p] in either case ([p] itself, or its capital
    when [p] is one of a-z). *)
Definition same_letter (m p : N) : Prop :=
  m = p \/ (0x61 <= p /\ p <= 0x7A /\ m = p - 0x20).

(** [pat] occurs in [s] up to the case of letters. *)
Definition ci_occurs (pat s : str) : Prop :=
  exists pre mid post,
    s = pre ++ mid ++ post /\ Forall2 same_letter mid pat.

(** A pattern without capitals, such as the two that are searched. *)
Definition no_capital (pat : str) : Prop :=
  Forall (fun p => p < 0x41 \/ 0x5A < p) pat.


(** ** Sequences of calls *)

(** [n] calls of [load_model] in a row: their outcomes and the state
    they leave. *)
Fixpoint load_model_times (env : collaborators) (n : nat) (s : state)
  : list (outcome bool) * state :=
  match n with
  | O => ([], s)
  | S n' =>
      let '(r, s1) := load_model env s in
      let '(rs, s2) := load_model_times env n' s1 in
      (r :: rs, s2)
  end.

(** The process serving requests one after the other.  A request whose
    handler raises is over; the process goes on with the next one. *)
Fixpoint serve (env : collaborators) (requests : list (option Image))
  (s : state) : state :=
  match requests with
  | [] => s
  | image :: rest => serve env rest (snd (generate_caption env image s))
  end.

(** ** The end of the [try] block

    The [try] block of [generate_caption] from the call of the cached
    pipeline [h] on: the outcome for each answer, and the call recorded.
    [caption_try_eq] below relates it to [caption_try]. *)
Definition infer_on (env : collaborators) (image : Image) (h : Handle)
  (s : state) : outcome str * state :=
  (match call_pipeline env (hist s) h image with
   | Return [] => Return Msg.empty_result
   | Return (first :: _) =>
       match first !! generated_text with
       | Some v => Return (Msg.success_marker ++ strip v)
       | None => Raise (KeyError generated_text)
       end
   | Raise e => Raise e
   end, record (EvInfer h image) s).

(** ** Assumptions on the collaborators *)

(** Whatever the collaborators raise derives from [Exception]. *)
Definition raises_only_Exception (env : collaborators) : Prop :=
  (forall t m d e, pipeline env t m d = Raise e -> exn_is_Exception e = true)
  /\ (forall t h i e,
        call_pipeline env t h i = Raise e -> exn_is_Exception e = true)
  /\ (forall t i m e, convert env t i m = Raise e -> exn_is_Exception e = true).

(** PIL's contract: [image.convert(m)] returns an image of mode [m]. *)
Definition convert_sets_mode (env : collaborators) : Prop :=
  forall t i m i', convert env t i m = Return i' -> mode i' = m.

(** The strings that [generate_caption] returns. *)
Definition is_message (msg : str) : Prop :=
  msg = Msg.upload \/ msg = Msg.load_failed \/ msg = Msg.empty_result
  \/ msg = Msg.out_of_memory \/ msg = Msg.network
  \/ (exists error_msg, msg = Msg.processing_prefix ++ error_msg)
  \/ (exists caption, msg = Msg.success_marker ++ strip caption).

(** ** Statements of the specification that the code does not meet *)


(** "if construction fails and the device is the GPU, switches the device
    to CPU and retries". *)
Definition fallback_switches_device_claim : Prop :=
  forall env s e,
    caption_pipeline (self s) = None ->
    device (self s) = 0%Z ->
    pipeline env (hist s ++ [EvLoadModel]) (model_name (self s)) 0%Z = Raise e ->
    exn_is_Exception e = true ->
    device (self (snd (load_model env s))) = (-1)%Z.

(** "N simultaneous first-time callers result in exactly one construction
    and all receive the same handle", whatever the schedule. *)
Definition single_flight_claim : Prop :=
  forall env s n schedule callers' s',
    caption_pipeline (self s) = None ->
    (forall t m d, exists h, pipeline env t m d = Return h) ->
    Threads.run env schedule (replicate n Threads.AtEntry) s = (callers', s') ->
    Forall (fun p => exists r seen, p = Threads.Finished r seen) callers' ->
    (1 < n)%nat ->
    length (constructions (hist s')) = S (length (constructions (hist s)))
    /\ exists h,
         Forall (fun p => p = Threads.Finished (Return true) (Some h)) callers'.

(** ** Counting the callers of [load_model] by program point *)

(** Every call of [pipeline(...)] returns a pipeline. *)
Definition always_constructs (env : collaborators) : Prop :=
  forall t m d, exists h, pipeline env t m d = Return h.

(** The caller has made the test of the cached pipeline. *)
Definition past_check (p : Threads.pc) : nat :=
  match p with Threads.AtEntry => 0 | _ => 1 end.

(** The caller is about to call [pipeline(...)] for the first time. *)
Definition about_to_construct (p : Threads.pc) : nat :=
  match p with Threads.AtConstruct => 1 | _ => 0 end.

(** The caller holds a pipeline that it has not stored yet. *)
Definition holds_unstored (p : Threads.pc) : nat :=
  match p with Threads.AtStore _ => 1 | _ => 0 end.

(** The caller may still call [pipeline(...)] for the first time. *)
Definition may_construct (p : Threads.pc) : nat :=
  match p with Threads.AtEntry | Threads.AtConstruct => 1 | _ => 0 end.

(** The program points of a call in which no construction fails; a
    caller that is returning, or has returned, does so with [True] and
    with a pipeline cached. *)
Definition on_success_path (s : state) (p : Threads.pc) : Prop :=
  match p with
  | Threads.AtEntry | Threads.AtConstruct | Threads.AtStore _ => True
  | Threads.AtReturn b =>
      b = true /\ exists h, caption_pipeline (self s) = Some h
  | Threads.Finished r seen => r = Return true /\ exists h, seen = Some h
  | _ => False
  end.

(** All callers make the test first, in turn. *)
Definition all_check_first (n : nat) : list nat := seq 0 n.

(** After the tests: the first two callers construct and store in
    turn, then the third caller runs. *)
Definition three_overlapping : list nat := [0; 1; 0; 0; 1; 1; 2; 2; 2]%nat.

(** ** More observations on traces and callers *)

(** The images on which [convert] was called, oldest first. *)
Definition conversions (t : trace) : list Image :=
  omap (fun ev => match ev with EvConvert i _ => Some i | _ => None end) t.

(** The calls of [pipeline(...)] that a caller of [load_model] can still
    make from its program point: two before the first construction, one
    between a failure and the retry, none afterwards. *)
Definition attempts_left (p : Threads.pc) : nat :=
  match p with
  | Threads.AtEntry | Threads.AtConstruct => 2
  | Threads.AtHandler | Threads.AtRetry => 1
  | _ => 0
  end.

(** ** The entry point: [launch] and [main] *)

Module Entry.

(** An exception as the clauses of [main] see it: [except
    KeyboardInterrupt] is tried first, [except Exception] second. *)
Record raised := { exn : PyExn; is_KeyboardInterrupt : bool }.

(** [sys.version_info], of which a comparison with a pair reaches the
    first two components and the length only. *)
Record version := { major : Z; minor : Z; micro : Z }.

(** What the process shows and does. *)
Inductive happening :=
| Printed (line : str)
| Launched (share : bool) (server_name : str) (server_port : Z).

(** The runtime and the web framework; [None] stands for a return.
    [console] is [print(line)] after what was shown so far, which
    raises for instance when the terminal cannot encode the line;
    [new_app] is [ImageCaptioningApp()]; [gr_Interface] is the call
    [gr.Interface(...)] of [create_interface]; and [interface_launch]
    is the call [interface.launch(...)], which serves until it returns
    or raises.  An interrupt that arrives during one of these calls is
    that call raising [KeyboardInterrupt]. *)
Record host := {
  version_info : version;
  console : list happening -> str -> option raised;
  new_app : option raised;
  gr_Interface : App -> option raised;
  interface_launch : bool -> str -> Z -> option raised
}.

(** How [main] ends: it returns, [sys.exit(status)] ends the process, or
    an exception leaves it. *)
Inductive ending :=
| Returned
| Exited (status : Z)
| Propagated (r : raised).

(** Comparison [a < b] of two tuples of integers: the first position
    where they differ decides; if there is none the shorter is less. *)
Fixpoint tuple_lt (a b : list Z) : bool :=
  match a, b with
  | [], [] => false
  | [], _ :: _ => true
  | _ :: _, [] => false
  | x :: a', y :: b' => if (x =? y)%Z then tuple_lt a' b' else (x <? y)%Z
  end.

Definition as_tuple (v : version) : list Z := [major v; minor v; micro v].

(** [launch]: the exception of [create_interface] leaves at once; the
    one of [interface.launch] is logged when it is an [Exception] and
    raised again. *)
Definition launch (hst : host) (app : App) (share : bool)
    (server_name : str) (server_port : Z) (seen : list happening)
  : option raised * list happening :=
  match gr_Interface hst app with
  | Some r => (Some r, seen)
  | None =>
      let seen := seen ++ [Launched share server_name server_port] in
      match interface_launch hst share server_name server_port with
      | None => (None, seen)
      | Some r =>
          if exn_is_Exception (exn r) then (Some r, seen) else (Some r, seen)
      end
  end.

Definition banner : str := [0x1F5BC; 0xFE0F] ++ ascii_text " AI Image Captioning App".
Definition rule : str := concat (replicate 50 (ascii_text "=")).
Definition starting : str := [0x1F680] ++ ascii_text " Starting up...".
Definition too_old : str := [0x274C] ++ ascii_text " Python 3.7+ required".
Definition stopped : str := [0x0A; 0x1F44B] ++ ascii_text " App stopped by user".
Definition error_prefix : str := [0x274C] ++ ascii_text " Error: ".

(** [print(line)] *)
Definition print (hst : host) (line : str) (seen : list happening)
  : option raised * list happening :=
  match console hst seen line with
  | Some r => (Some r, seen)
  | None => (None, seen ++ [Printed line])
  end.

(** A statement of [main] outside every [try], or inside a handler: when
    it raises, the exception leaves [main]. *)
Definition unguarded (stmt : list happening -> option raised * list happening)
    (rest : list happening -> ending * list happening)
    (seen : list happening) : ending * list happening :=
  match stmt seen with
  | (Some r, seen) => (Propagated r, seen)
  | (None, seen) => rest seen
  end.

(** [main].  The three lines of the banner, the test of the version and
    [ImageCaptioningApp()] come before the [try]; [app.launch(...)] is
    inside it; the [print] of each handler is not guarded. *)
Definition main (env : collaborators) (hst : host) : ending * list happening :=
  unguarded (print hst banner)
    (unguarded (print hst rule)
       (unguarded (print hst starting)
          (fun seen =>
             if tuple_lt (as_tuple (version_info hst)) [3; 7]%Z
             then unguarded (print hst too_old)
                    (fun seen => (Exited 1, seen)) seen
             else
               unguarded (fun seen => (new_app hst, seen))
                 (fun seen =>
                    let app := init env in
                    match launch hst app true (ascii_text "0.0.0.0") 7860
                            seen with
                    | (None, seen) => (Returned, seen)
                    | (Some r, seen) =>
                        if is_KeyboardInterrupt r
                        then unguarded (print hst stopped)
                               (fun seen => (Returned, seen)) seen
                        else if exn_is_Exception (exn r)
                        then unguarded
                               (print hst (error_prefix ++ exn_str (exn r)))
                               (fun seen => (Exited 1, seen)) seen
                        else (Propagated r, seen)
                    end) seen))) [].

(** The calls of [interface.launch] among what happened. *)
Definition launches (seen : list happening) : list (bool * str * Z) :=
  omap (fun hp => match hp with
                  | Launched sh nm pt => Some (sh, nm, pt)
                  | Printed _ => None
                  end) seen.

(** A host for examples: Python [v], a framework that constructs the
    interface and whose server ends as [served]. *)
Definition host_of (v : version) (served : option raised) : host :=
  {| version_info := v;
     console := fun _ _ => None;
     new_app := None;
     gr_Interface := fun _ => None;
     interface_launch := fun _ _ _ => served |}.

(** Every line can be shown. *)
Definition console_works (hst : host) : Prop :=
  forall seen line, console hst seen line = None.

(** The version is below 3.7. *)
Definition below_3_7 (v : version) : Prop :=
  (major v < 3)%Z \/ (major v = 3%Z /\ (minor v < 7)%Z).

(** The exception [r] is raised when the interface is constructed, or
    when it is served. *)
Definition raised_in_launch (env : collaborators) (hst : host) (r : raised)
  : Prop :=
  gr_Interface hst (init env) = Some r
  \/ (gr_Interface hst (init env) = None
      /\ interface_launch hst true (ascii_text "0.0.0.0") 7860%Z = Some r).

End Entry.

(** ** More stub collaborators *)

Module MoreStubs.

(** The conversion to RGB fails. *)
Definition unconvertible : collaborators :=
  {| cuda_is_available := false;
     pipeline := fun t _ _ => Return (Stub.fresh_handle t);
     call_pipeline := fun _ _ _ => Return (Stub.captions "a cat");
     convert := fun _ _ _ =>
       Raise (Stub.RuntimeError "image file is truncated") |}.

(** The pipeline answers with a candidate that has a score and no
    text, followed by one that has a text. *)
Definition malformed : collaborators :=
  {| cuda_is_available := false;
     pipeline := fun t _ _ => Return (Stub.fresh_handle t);
     call_pipeline := fun _ _ _ =>
       Return [ {[ ascii_text "score" := ascii_text "0.9" ]};
                {[ generated_text := ascii_text "a cat" ]} ];
     convert := Stub.pil_convert |}.

(** A working machine after a first call of [load_model]. *)
Definition loaded : state :=
  snd (load_model (Stub.working "a cat") (Stub.start (Stub.working "a cat"))).

Definition interrupt : Entry.raised :=
  {| Entry.exn := Stub.KeyboardInterrupt; Entry.is_KeyboardInterrupt := true |}.

Definition port_in_use : Entry.raised :=
  {| Entry.exn := Stub.RuntimeError "Cannot find empty port in range: 7860-7860";
     Entry.is_KeyboardInterrupt := false |}.

Definition UnicodeEncodeError : Entry.raised :=
  {| Entry.exn :=
       Stub.RuntimeError "'ascii' codec can't encode character";
     Entry.is_KeyboardInterrupt := false |}.

Definition no_cuda_runtime : Entry.raised :=
  {| Entry.exn := Stub.RuntimeError "CUDA driver initialization failed";
     Entry.is_KeyboardInterrupt := false |}.

Definition python_3_6_9 : Entry.version :=
  {| Entry.major := 3; Entry.minor := 6; Entry.micro := 9 |}.
Definition python_3_7_0 : Entry.version :=
  {| Entry.major := 3; Entry.minor := 7; Entry.micro := 0 |}.
Definition python_3_11_4 : Entry.version :=
  {| Entry.major := 3; Entry.minor := 11; Entry.micro := 4 |}.

(** A terminal that cannot show the banner. *)
Definition ascii_terminal : Entry.host :=
  {| Entry.version_info := python_3_11_4;
     Entry.console := fun _ _ => Some UnicodeEncodeError;
     Entry.new_app := None;
     Entry.gr_Interface := fun _ => None;
     Entry.interface_launch := fun _ _ _ => None |}.

(** [ImageCaptioningApp()] raises. *)
Definition broken_runtime : Entry.host :=
  {| Entry.version_info := python_3_11_4;
     Entry.console := fun _ _ => None;
     Entry.new_app := Some no_cuda_runtime;
     Entry.gr_Interface := fun _ => None;
     Entry.interface_launch := fun _ _ _ => None |}.

End MoreStubs.

(** ** The embedding at work *)

Example strip_dog :
  strip (ascii_text "  a dog running  ") = ascii_text "a dog running".
Proof. reflexivity. Qed.

(** The no-break space U+00A0 and the line separator U+2028 are
    whitespace for [strip], as in Python. *)
Example strip_unicode :
  strip ([0xA0; 0x09] ++ ascii_text "a cat" ++ [0x2028; 0x0A])
  = ascii_text "a cat".
Proof. reflexivity. Qed.

Example lower_out_of_memory :
  contains pat_out_of_memory
    (lower (ascii_text "CUDA Out Of Memory. Tried to allocate 2 GiB")) = true.
Proof. reflexivity. Qed.

(** A first request with a greyscale image on a machine without GPU:
    the model is constructed on the CPU, the image is converted, and
    the caption comes back trimmed. *)
Example request_on_working_machine :
  generate_caption (Stub.working "  a dog running  ") (Some Stub.scan)
    (Stub.start (Stub.working "  a dog running  "))
  = (Return (Msg.success_marker ++ ascii_text "a dog running"),
     {| self := {| caption_pipeline := Some 0;
                   device := (-1)%Z;
                   model_name :=
                     ascii_text "Salesforce/blip-image-captioning-base" |};
        hist := Stub.first_request
                ++ [EvConvert Stub.scan RGB;
                    EvInfer 0 {| mode := RGB; pixels := 8 |}] |}).
Proof. vm_compute. reflexivity. Qed.

(** No device works: the request ends with the load-failure message,
    nothing is cached and the device is still the GPU. *)
Example request_without_model :
  generate_caption Stub.all_broken (Some Stub.photo)
    (Stub.start Stub.all_broken)
  = (Return Msg.load_failed,
     {| self := init Stub.all_broken;
        hist := [EvLoadModel;
                 EvPipeline (model_name (init Stub.all_broken)) 0%Z;
                 EvPipeline (model_name (init Stub.all_broken)) (-1)%Z] |}).
Proof. vm_compute. reflexivity. Qed.

(** A candidate without the key [generated_text]: the [KeyError] is
    caught and reported as a processing error. *)
Example request_with_malformed_candidate :
  fst (generate_caption
         {| cuda_is_available := false;
            pipeline := fun t _ _ => Return (Stub.fresh_handle t);
            call_pipeline := fun _ _ _ => Return [ (∅ : Candidate) ];
            convert := Stub.pil_convert |}
         (Some Stub.photo)
         {| self := {| caption_pipeline := Some 5; device := (-1)%Z;
                       model_name := [] |};
            hist := [] |})
  = Return (Msg.processing_prefix ++ ascii_text "'generated_text'").
Proof. vm_compute. reflexivity. Qed.

(** ** Properties of the string operations *)

Arguments is_space : simpl never.
Arguments lower_cp : simpl never.
Arguments ascii_text : simpl never.
Arguments Msg.upload : simpl never.
Arguments Msg.load_failed : simpl never.
Arguments Msg.success_marker : simpl never.
Arguments Msg.empty_result : simpl never.
Arguments Msg.out_of_memory : simpl never.
Arguments Msg.network : simpl never.
Arguments Msg.processing_prefix : simpl never.
Arguments RGB : simpl never.
Arguments generated_text : simpl never.
Arguments pat_out_of_memory : simpl never.
Arguments pat_connection : simpl never.

Section StripFacts.

Lemma lstrip_split (s : str) :
  exists l, s = l ++ lstrip s /\ forallb is_space l = true.
Proof.
  induction s as [|c s IH]; simpl.
  - exists []. split; reflexivity.
  - destruct (is_space c) eqn:Hc.
    + destruct IH as (l & Hs & Hl). exists (c :: l). simpl.
      rewrite Hc, Hl. split; [congruence | reflexivity].
    + exists []. split; reflexivity.
Qed.

Lemma lstrip_head (s : str) (c : N) :
  head (lstrip s) = Some c -> is_space c = false.
Proof.
  induction s as [|a s IH]; simpl; [discriminate|].
  destruct (is_space a) eqn:Ha; [exact IH|].
  simpl. intros [= <-]. exact Ha.
Qed.

Lemma rstrip_split (s : str) :
  exists r, s = rstrip s ++ r /\ forallb is_space r = true.
Proof.
  unfold rstrip. destruct (lstrip_split (rev s)) as (l & Hs & Hl).
  exists (rev l). split.
  - rewrite <- rev_app_distr, <- Hs, rev_involutive. reflexivity.
  - apply forallb_forall. intros x Hx.
    apply (proj1 (forallb_forall _ _) Hl), in_rev, Hx.
Qed.

Lemma last_rev (s : str) : last (rev s) = head s.
Proof. rewrite rev_alt. apply last_reverse. Qed.

Lemma rstrip_last (s : str) (c : N) :
  last (rstrip s) = Some c -> is_space c = false.
Proof. unfold rstrip. rewrite last_rev. apply lstrip_head. Qed.

(** [strip] removes a run of whitespace at each end and nothing else. *)
Lemma strip_split (s : str) :
  exists l r, s = l ++ strip s ++ r
              /\ forallb is_space l = true /\ forallb is_space r = true.
Proof.
  destruct (lstrip_split s) as (l & Hl & Hsl).
  destruct (rstrip_split (lstrip s)) as (r & Hr & Hsr).
  exists l, r. unfold strip. rewrite <- Hr. auto.
Qed.

(** What [strip] returns neither starts nor ends with whitespace. *)
Lemma strip_head (s : str) (c : N) :
  head (strip s) = Some c -> is_space c = false.
Proof.
  unfold strip. destruct (rstrip_split (lstrip s)) as (r & Hr & _).
  intros H. apply (lstrip_head s). rewrite Hr.
  destruct (rstrip (lstrip s)); [discriminate | exact H].
Qed.

Lemma strip_last (s : str) (c : N) :
  last (strip s) = Some c -> is_space c = false.
Proof. apply rstrip_last. Qed.

End StripFacts.

(** ** Case-insensitive occurrence and the test of the source *)

Section OccursFacts.

Lemma lower_cp_same_letter (m p : N) :
  p < 0x41 \/ 0x5A < p -> (lower_cp m = p <-> same_letter m p).
Proof.
  intros Hp. unfold lower_cp, same_letter.
  destruct ((0x41 <=? m) && (m <=? 0x5A)) eqn:Hm.
  - apply andb_true_iff in Hm as [H1 H2].
    apply N.leb_le in H1, H2. lia.
  - apply andb_false_iff in Hm as [H|H]; apply N.leb_gt in H; lia.
Qed.

Lemma startswith_lower (pat s : str) :
  no_capital pat ->
  startswith pat (lower s) = true <->
  exists mid post, s = mid ++ post /\ Forall2 same_letter mid pat.
Proof.
  intros Hpat. revert s.
  induction Hpat as [|p pat Hp Hpat IH]; intros s; simpl.
  - split; [|reflexivity]. intros _. exists [], s. split; [reflexivity|constructor].
  - destruct s as [|c s]; simpl.
    + split; [discriminate|].
      intros (mid & post & Hs & Hmid). inversion Hmid; subst. discriminate.
    + rewrite andb_true_iff, N.eqb_eq, IH. split.
      * intros [Hc (mid & post & -> & Hmid)].
        exists (c :: mid), post. split; [reflexivity|].
        constructor; [|exact Hmid].
        apply lower_cp_same_letter; [exact Hp | congruence].
      * intros (mid & post & Hs & Hmid).
        inversion Hmid as [|m p' mid' pat' Hmp Hrest]; subst.
        injection Hs as -> ->. split.
        -- symmetry. apply lower_cp_same_letter; assumption.
        -- exists mid', post. split; [reflexivity | exact Hrest].
Qed.

(** The test of the source, [pat in s.lower()], is the case-insensitive
    occurrence of [pat] in [s]. *)
Lemma contains_lower (pat s : str) :
  no_capital pat ->
  contains pat (lower s) = true <-> ci_occurs pat s.
Proof.
  intros Hpat. unfold ci_occurs.
  induction s as [|c s IH].
  - simpl. rewrite orb_false_r.
    change (@nil N) with (lower []) at 1. rewrite startswith_lower by exact Hpat.
    split.
    + intros (mid & post & Hs & Hmid). exists [], mid, post. auto.
    + intros (pre & mid & post & Hs & Hmid).
      destruct pre; [|discriminate]. exists mid, post. auto.
  - change (lower (c :: s)) with (lower_cp c :: lower s).
    cbn [contains]. rewrite orb_true_iff, IH.
    change (lower_cp c :: lower s) with (lower (c :: s)).
    rewrite startswith_lower by exact Hpat. split.
    + intros [(mid & post & Hs & Hmid) | (pre & mid & post & Hs & Hmid)].
      * exists [], mid, post. auto.
      * exists (c :: pre), mid, post. split; [simpl; congruence | exact Hmid].
    + intros (pre & mid & post & Hs & Hmid). destruct pre as [|c' pre].
      * left. exists mid, post. auto.
      * right. injection Hs as -> ->. exists pre, mid, post. auto.
Qed.

Lemma no_capital_out_of_memory : no_capital pat_out_of_memory.
Proof. repeat constructor; vm_compute; intuition congruence. Qed.

Lemma no_capital_connection : no_capital pat_connection.
Proof. repeat constructor; vm_compute; intuition congruence. Qed.

End OccursFacts.

(** ** The model loader *)

Ltac unfold_methods :=
  unfold generate_caption, caption_try, caption_except, load_model,
    run_caption_pipeline, image_convert, getitem, new_pipeline, try_except, bind, call, emit, get_self,
    set_caption_pipeline, set_device, ret.

Ltac break_match :=
  match goal with
  | |- context [match ?x with _ => _ end] => destruct x eqn:?; simpl in *
  end.

Ltac tidy :=
  cbn [fst snd hist self record exn_is_Exception KeyError].

(** Case analysis on the answers of the collaborators that occur in the
    goal. *)
Ltac split_answers :=
  repeat (match goal with
          | |- context [bool_decide ?P] => destruct (bool_decide P) eqn:?
          | |- context [convert ?e ?t ?i ?m] =>
              destruct (convert e t i m) eqn:?
          | |- context [call_pipeline ?e ?t ?h ?i] =>
              destruct (call_pipeline e t h i) as [[|? ?]|?] eqn:?
          | |- context [?c !! generated_text] =>
              destruct (c !! generated_text) eqn:?
          | |- context [exn_is_Exception ?e] =>
              is_var e; destruct (exn_is_Exception e) eqn:?
          end; cbn [fst snd exn_is_Exception KeyError]).

(** Choose the disjunct of [is_message] that fits. *)
Ltac pick_message :=
  repeat first [ reflexivity | eexists; reflexivity | left; reflexivity
               | left; eexists; reflexivity | right ].

Ltac finish_trace :=
  unfold record; simpl; rewrite <- ?app_assoc; simpl; reflexivity.

Section LoadModel.

Variable env : collaborators.

(** A cached pipeline: [True] at once, nothing else happens. *)
Lemma load_model_cached (s : state) (h : Handle) :
  caption_pipeline (self s) = Some h ->
  load_model env s = (Return true, record EvLoadModel s).
Proof.
  intros H. unfold_methods. simpl. rewrite H. reflexivity.
Qed.

(** The first construction succeeds. *)
Lemma load_model_constructs (s : state) (h : Handle) :
  caption_pipeline (self s) = None ->
  pipeline env (hist s ++ [EvLoadModel]) (model_name (self s)) (device (self s))
    = Return h ->
  load_model env s =
    (Return true,
     {| self := {| caption_pipeline := Some h;
                   device := device (self s);
                   model_name := model_name (self s) |};
        hist := hist s ++ [EvLoadModel]
                       ++ [EvPipeline (model_name (self s)) (device (self s))] |}).
Proof.
  intros Hc Hp. unfold_methods. simpl. rewrite Hc. simpl. rewrite Hp. simpl.
  rewrite <- app_assoc. reflexivity.
Qed.

(** The first construction fails on the GPU and the one on the CPU
    succeeds. *)
Lemma load_model_falls_back (s : state) (e : PyExn) (h : Handle) :
  caption_pipeline (self s) = None ->
  device (self s) = 0%Z ->
  pipeline env (hist s ++ [EvLoadModel]) (model_name (self s)) 0%Z = Raise e ->
  exn_is_Exception e = true ->
  pipeline env (hist s ++ [EvLoadModel; EvPipeline (model_name (self s)) 0%Z])
    (model_name (self s)) (-1)%Z = Return h ->
  load_model env s =
    (Return true,
     {| self := {| caption_pipeline := Some h;
                   device := (-1)%Z;
                   model_name := model_name (self s) |};
        hist := hist s ++ [EvLoadModel; EvPipeline (model_name (self s)) 0%Z;
                           EvPipeline (model_name (self s)) (-1)%Z] |}).
Proof.
  intros Hc Hd Hp He Hp2. unfold_methods. simpl.
  rewrite Hc. simpl. rewrite Hd, Hp. simpl. rewrite He. simpl.
  rewrite Hd. simpl. rewrite <- app_assoc. simpl. rewrite Hp2. simpl.
  rewrite <- app_assoc. reflexivity.
Qed.

(** Both constructions fail. *)
Lemma load_model_fallback_fails (s : state) (e e2 : PyExn) :
  caption_pipeline (self s) = None ->
  device (self s) = 0%Z ->
  pipeline env (hist s ++ [EvLoadModel]) (model_name (self s)) 0%Z = Raise e ->
  exn_is_Exception e = true ->
  pipeline env (hist s ++ [EvLoadModel; EvPipeline (model_name (self s)) 0%Z])
    (model_name (self s)) (-1)%Z = Raise e2 ->
  exn_is_Exception e2 = true ->
  load_model env s =
    (Return false,
     {| self := self s;
        hist := hist s ++ [EvLoadModel; EvPipeline (model_name (self s)) 0%Z;
                           EvPipeline (model_name (self s)) (-1)%Z] |}).
Proof.
  intros Hc Hd Hp He Hp2 He2. unfold_methods. simpl.
  rewrite Hc. simpl. rewrite Hd, Hp. simpl. rewrite He. simpl.
  rewrite Hd. simpl. rewrite <- app_assoc. simpl. rewrite Hp2. simpl.
  rewrite He2. finish_trace.
Qed.

(** After a failure on the GPU there is one more construction, on the
    CPU, however it ends. *)
Lemma load_model_retries_once (s : state) (e : PyExn) :
  caption_pipeline (self s) = None ->
  device (self s) = 0%Z ->
  pipeline env (hist s ++ [EvLoadModel]) (model_name (self s)) 0%Z = Raise e ->
  exn_is_Exception e = true ->
  hist (snd (load_model env s))
  = hist s ++ [EvLoadModel; EvPipeline (model_name (self s)) 0%Z;
               EvPipeline (model_name (self s)) (-1)%Z].
Proof.
  intros Hc Hd Hp He. unfold_methods. simpl.
  rewrite Hc. simpl. rewrite Hd, Hp. simpl. rewrite He. simpl.
  rewrite Hd. simpl.
  destruct (pipeline env _ _ (-1)%Z) as [h|e2]; simpl; [finish_trace|].
  destruct (exn_is_Exception e2); finish_trace.
Qed.

(** The construction fails and the device is not the GPU. *)
Lemma load_model_fails_on_cpu (s : state) (e : PyExn) :
  caption_pipeline (self s) = None ->
  device (self s) <> 0%Z ->
  pipeline env (hist s ++ [EvLoadModel]) (model_name (self s)) (device (self s))
    = Raise e ->
  exn_is_Exception e = true ->
  load_model env s =
    (Return false,
     {| self := self s;
        hist := hist s ++ [EvLoadModel;
                           EvPipeline (model_name (self s)) (device (self s))] |}).
Proof.
  intros Hc Hd Hp He. unfold_methods. simpl.
  rewrite Hc. simpl. rewrite Hp. simpl. rewrite He. simpl.
  apply Z.eqb_neq in Hd. rewrite Hd. finish_trace.
Qed.

(** [load_model] assigns nothing but [-1] to the device. *)
Lemma load_model_device (s : state) :
  device (self (snd (load_model env s))) = device (self s)
  \/ device (self (snd (load_model env s))) = (-1)%Z.
Proof.
  unfold_methods. simpl.
  destruct (caption_pipeline (self s)); simpl; [auto|].
  destruct (pipeline env _ _ _) as [h|e]; simpl; [auto|].
  destruct (exn_is_Exception e); simpl; [|auto].
  destruct (device (self s) =? 0)%Z; simpl; [|auto].
  destruct (pipeline env _ _ _) as [h|e2]; simpl; [auto|].
  destruct (exn_is_Exception e2); simpl; auto.
Qed.

(** The events of one call: the entry, then constructions only. *)
Lemma load_model_hist (s : state) :
  exists evs,
    hist (snd (load_model env s)) = hist s ++ EvLoadModel :: evs
    /\ Forall (fun ev => exists m d, ev = EvPipeline m d) evs
    /\ (length evs <= 2)%nat.
Proof.
  unfold_methods. simpl.
  destruct (caption_pipeline (self s)); simpl.
  { exists []. split; [reflexivity|]. split; [constructor | simpl; lia]. }
  destruct (pipeline env _ _ _) as [h|e]; simpl.
  { exists [EvPipeline (model_name (self s)) (device (self s))].
    split; [finish_trace|]. split; [|simpl; lia].
    repeat constructor. eauto. }
  destruct (exn_is_Exception e); simpl.
  2:{ exists [EvPipeline (model_name (self s)) (device (self s))].
      split; [finish_trace|]. split; [|simpl; lia].
      repeat constructor. eauto. }
  destruct (device (self s) =? 0)%Z; simpl.
  2:{ exists [EvPipeline (model_name (self s)) (device (self s))].
      split; [finish_trace|]. split; [|simpl; lia].
      repeat constructor. eauto. }
  exists [EvPipeline (model_name (self s)) (device (self s));
          EvPipeline (model_name (self s)) (-1)%Z].
  split; [|split; [repeat constructor; eauto | simpl; lia]].
  destruct (pipeline env _ _ _) as [h|e2]; simpl; [finish_trace|].
  destruct (exn_is_Exception e2); finish_trace.
Qed.

(** A call never ends on an inference. *)
Lemma load_model_not_infer (s : state) (t : trace) (h : Handle) (i : Image) :
  hist (snd (load_model env s)) <> t ++ [EvInfer h i].
Proof.
  destruct (load_model_hist s) as (evs & -> & Hevs & _). intros H.
  destruct (@exists_last _ (EvLoadModel :: evs)) as (front & ev & Hlast);
    [discriminate|].
  assert (Hev : ev = EvLoadModel \/ exists m d, ev = EvPipeline m d).
  { assert (Hin : In ev (EvLoadModel :: evs))
      by (rewrite Hlast; apply in_or_app; right; left; reflexivity).
    destruct Hin as [<-|Hin]; [left; reflexivity | right].
    rewrite Forall_forall in Hevs. apply Hevs, list_elem_of_In, Hin. }
  rewrite Hlast, app_assoc in H. apply app_inj_tail in H as [_ ->].
  destruct Hev as [?|(m & d & ?)]; discriminate.
Qed.

(** No inference happens inside [load_model]. *)
Lemma load_model_inferences (s : state) :
  inferences (hist (snd (load_model env s))) = inferences (hist s).
Proof.
  destruct (load_model_hist s) as (evs & -> & Hevs & _).
  unfold inferences. rewrite omap_app. simpl.
  rewrite <- (app_nil_r (omap _ (hist s))) at 2. f_equal.
  induction Hevs as [|ev evs (m & d & ->) _ IH]; [reflexivity | exact IH].
Qed.

(** When [load_model] returns [True] a pipeline is cached. *)
Lemma load_model_true (s s1 : state) :
  load_model env s = (Return true, s1) ->
  exists h, caption_pipeline (self s1) = Some h.
Proof.
  unfold_methods. simpl.
  destruct (caption_pipeline (self s)) as [h0|] eqn:Hc; simpl.
  { intros [= <-]. simpl. eauto. }
  destruct (pipeline env _ _ _) as [h|e]; simpl.
  { intros [= <-]. simpl. eauto. }
  destruct (exn_is_Exception e); simpl; [|discriminate].
  destruct (device (self s) =? 0)%Z; simpl; [|discriminate].
  destruct (pipeline env _ _ _) as [h|e2]; simpl.
  { intros [= <-]. simpl. eauto. }
  destruct (exn_is_Exception e2); simpl; discriminate.
Qed.


End LoadModel.

(** ** The caption service *)

Section Caption.

Variable env : collaborators.

(** The [except] block returns one of three messages and changes
    nothing. *)
Lemma caption_except_eq (e : PyExn) (s : state) :
  caption_except e s =
    (Return (if contains pat_out_of_memory (lower (exn_str e))
             then Msg.out_of_memory
             else if contains pat_connection (lower (exn_str e))
             then Msg.network
             else Msg.processing_prefix ++ exn_str e), s).
Proof.
  unfold caption_except, ret.
  destruct (contains pat_out_of_memory _); [reflexivity|].
  destruct (contains pat_connection _); reflexivity.
Qed.

(** A request with an image: what follows [load_model]. *)
Lemma generate_caption_some (image : Image) (s : state) :
  generate_caption env (Some image) s =
    match load_model env s with
    | (Return true, s1) => try_except (caption_try env image) caption_except s1
    | (Return false, s1) => (Return Msg.load_failed, s1)
    | (Raise e, s1) => (Raise e, s1)
    end.
Proof.
  unfold generate_caption, bind.
  destruct (load_model env s) as [[[|]|e] s1]; reflexivity.
Qed.

(** The [try] block: the conversion when it is needed, then the call. *)
Lemma caption_try_eq (image : Image) (h : Handle) (s : state) :
  caption_pipeline (self s) = Some h ->
  caption_try env image s =
    if bool_decide (mode image = RGB) then infer_on env image h s
    else match convert env (hist s) image RGB with
         | Return image' => infer_on env image' h (record (EvConvert image RGB) s)
         | Raise e => (Raise e, record (EvConvert image RGB) s)
         end.
Proof.
  intros Hc. unfold infer_on. unfold_methods.
  destruct (bool_decide (mode image = RGB)); simpl.
  - rewrite Hc.
    destruct (call_pipeline env _ _ _) as [[|c l]|e]; simpl; try reflexivity.
    destruct (c !! generated_text); reflexivity.
  - destruct (convert env _ _ _) as [i|e]; simpl; [|reflexivity].
    rewrite Hc.
    destruct (call_pipeline env _ _ _) as [[|c l]|e]; simpl; try reflexivity.
    destruct (c !! generated_text); reflexivity.
Qed.

(** A request whose last event is the call of the pipeline: the result
    is decided by the answer to that call. *)
Lemma inference_run (image : Image) (s : state) (t : trace)
    (h : Handle) (i : Image) :
  hist (snd (generate_caption env (Some image) s)) = t ++ [EvInfer h i] ->
  fst (generate_caption env (Some image) s) =
    match call_pipeline env t h i with
    | Return [] => Return Msg.empty_result
    | Return (first :: _) =>
        match first !! generated_text with
        | Some v => Return (Msg.success_marker ++ strip v)
        | None => fst (caption_except (KeyError generated_text) s)
        end
    | Raise e =>
        if exn_is_Exception e then fst (caption_except e s) else Raise e
    end.
Proof.
  rewrite generate_caption_some.
  pose proof (load_model_not_infer env s t h i) as Hno.
  destruct (load_model env s) as [[[|]|e0] s1] eqn:Hl; cbn [snd] in Hno;
    try (intros H; contradiction).
  destruct (load_model_true _ _ _ Hl) as [h0 Hc].
  unfold try_except. rewrite (caption_try_eq _ _ _ Hc).
  destruct (bool_decide (mode image = RGB)).
  - unfold infer_on.
    destruct (call_pipeline env (hist s1) h0 image) as [[|c l]|e] eqn:Hcall.
    + tidy. intros H. apply app_inj_tail in H as [<- [= <- <-]].
      rewrite Hcall. reflexivity.
    + destruct (c !! generated_text) eqn:Hkey; tidy.
      * intros H. apply app_inj_tail in H as [<- [= <- <-]].
        rewrite Hcall, Hkey. reflexivity.
      * tidy. rewrite !caption_except_eq. tidy.
        intros H. apply app_inj_tail in H as [<- [= <- <-]].
        rewrite Hcall, Hkey. reflexivity.
    + destruct (exn_is_Exception e) eqn:He; tidy; rewrite ?caption_except_eq; tidy.
      * intros H. apply app_inj_tail in H as [<- [= <- <-]].
        rewrite Hcall, He, caption_except_eq. reflexivity.
      * intros H. apply app_inj_tail in H as [<- [= <- <-]].
        rewrite Hcall, He. reflexivity.
  - destruct (convert env (hist s1) image RGB) as [i'|e].
    + unfold infer_on. tidy.
      destruct (call_pipeline env _ h0 i') as [[|c l]|e] eqn:Hcall.
      * tidy. intros H. apply app_inj_tail in H as [<- [= <- <-]].
        rewrite Hcall. reflexivity.
      * destruct (c !! generated_text) eqn:Hkey; tidy.
        -- intros H. apply app_inj_tail in H as [<- [= <- <-]].
           rewrite Hcall, Hkey. reflexivity.
        -- tidy. rewrite !caption_except_eq. tidy.
           intros H. apply app_inj_tail in H as [<- [= <- <-]].
           rewrite Hcall, Hkey. reflexivity.
      * destruct (exn_is_Exception e) eqn:He; tidy; rewrite ?caption_except_eq; tidy.
        -- intros H. apply app_inj_tail in H as [<- [= <- <-]].
           rewrite Hcall, He, caption_except_eq. reflexivity.
        -- intros H. apply app_inj_tail in H as [<- [= <- <-]].
           rewrite Hcall, He. reflexivity.
    + destruct (exn_is_Exception e); tidy; rewrite ?caption_except_eq; tidy;
        intros H; apply app_inj_tail in H as [_ [=]].
Qed.

(** When [load_model] returns [True], the pipeline is called unless
    the conversion raises: on the image itself when it is RGB, on the
    converted image otherwise. *)
Lemma inference_reached (image : Image) (s s1 : state) (h : Handle) :
  load_model env s = (Return true, s1) ->
  caption_pipeline (self s1) = Some h ->
  (mode image = RGB ->
   hist (snd (generate_caption env (Some image) s))
   = hist s1 ++ [EvInfer h image])
  /\ (forall i,
        mode image <> RGB ->
        convert env (hist s1) image RGB = Return i ->
        hist (snd (generate_caption env (Some image) s))
        = (hist s1 ++ [EvConvert image RGB]) ++ [EvInfer h i]).
Proof.
  intros Hl Hc. rewrite generate_caption_some, Hl.
  unfold try_except. rewrite (caption_try_eq _ _ _ Hc). unfold infer_on.
  split.
  - intros Hmode. rewrite (bool_decide_eq_true_2 _ Hmode).
    split_answers; rewrite ?caption_except_eq; reflexivity.
  - intros i Hmode Hconv. rewrite (bool_decide_eq_false_2 _ Hmode), Hconv.
    split_answers; rewrite ?caption_except_eq; reflexivity.
Qed.

(** The message of the [except] block in terms of what the text of the
    exception contains. *)
Lemma caption_except_classes (e : PyExn) (s : state) :
  (ci_occurs pat_out_of_memory (exn_str e) ->
   fst (caption_except e s) = Return Msg.out_of_memory)
  /\ (~ ci_occurs pat_out_of_memory (exn_str e) ->
      ci_occurs pat_connection (exn_str e) ->
      fst (caption_except e s) = Return Msg.network)
  /\ (~ ci_occurs pat_out_of_memory (exn_str e) ->
      ~ ci_occurs pat_connection (exn_str e) ->
      fst (caption_except e s)
      = Return (Msg.processing_prefix ++ exn_str e)).
Proof.
  rewrite caption_except_eq. cbn [fst].
  pose proof (contains_lower pat_out_of_memory (exn_str e)
                no_capital_out_of_memory) as Hoom.
  pose proof (contains_lower pat_connection (exn_str e)
                no_capital_connection) as Hconn.
  destruct (contains pat_out_of_memory _);
    destruct (contains pat_connection _);
    repeat split; intros; try reflexivity;
    intuition congruence.
Qed.

(** C2: with no image, [generate_caption] returns the upload prompt at
    once and leaves everything as it was: [load_model] is not entered,
    no pipeline is constructed and no inference is attempted. *)
Theorem generate_caption_no_image (s : state) :
  fst (generate_caption env None s) = Return Msg.upload
  /\ snd (generate_caption env None s) = s
  /\ load_model_calls (hist (snd (generate_caption env None s)))
     = load_model_calls (hist s)
  /\ constructions (hist (snd (generate_caption env None s)))
     = constructions (hist s)
  /\ inferences (hist (snd (generate_caption env None s)))
     = inferences (hist s).
Proof. repeat split. Qed.

(** With an image, [load_model] is entered exactly once. *)
Lemma generate_caption_enters_load_model (image : Image) (s : state) :
  load_model_calls (hist (snd (generate_caption env (Some image) s)))
  = S (load_model_calls (hist s)).
Proof.
  assert (Hload : load_model_calls (hist (snd (load_model env s)))
                  = S (load_model_calls (hist s))).
  { destruct (load_model_hist env s) as (evs & -> & Hevs & _).
    unfold load_model_calls.
    change (EvLoadModel :: evs) with ([EvLoadModel] ++ evs).
    rewrite !omap_app, !length_app.
    assert (Hnone : omap (fun ev => match ev with
                                    | EvLoadModel => Some tt
                                    | _ => None
                                    end) evs = []).
    { induction Hevs as [|ev evs (m & d & ->) _ IH]; [reflexivity | exact IH]. }
    rewrite Hnone. simpl. lia. }
  assert (Hrec : forall ev s', ev <> EvLoadModel ->
            load_model_calls (hist (record ev s')) = load_model_calls (hist s')).
  { intros ev s' Hev. unfold load_model_calls, record. cbn [hist].
    rewrite omap_app, length_app. destruct ev; simpl; try lia. congruence. }
  rewrite generate_caption_some.
  destruct (load_model env s) as [[[|]|e0] s1] eqn:Hl; cbn [snd] in *;
    try exact Hload.
  destruct (load_model_true _ _ _ Hl) as [h0 Hc].
  unfold try_except. rewrite (caption_try_eq _ _ _ Hc).
  unfold infer_on. split_answers;
    rewrite ?caption_except_eq; cbn [fst snd];
    rewrite ?Hrec by discriminate; exact Hload.
Qed.

(** C5: in a request where the pipeline is called (on [i], after the
    events [t]) and answers with the empty sequence,
    [generate_caption] returns the "could not generate a caption"
    message: a return, not a raise, and a text that is not the generic
    processing-error message. *)
Theorem empty_result_message (image : Image) (s : state) (t : trace)
    (h : Handle) (i : Image) :
  hist (snd (generate_caption env (Some image) s)) = t ++ [EvInfer h i] ->
  call_pipeline env t h i = Return [] ->
  fst (generate_caption env (Some image) s) = Return Msg.empty_result
  /\ (forall error_msg,
        Msg.empty_result <> Msg.processing_prefix ++ error_msg).
Proof.
  intros Hrun Hcall. split.
  - rewrite (inference_run _ _ _ _ _ Hrun), Hcall. reflexivity.
  - intros error_msg H. apply (f_equal (take 3)) in H.
    vm_compute in H. discriminate.
Qed.

(** C6: in a request where the call of the pipeline raises an
    [Exception] [e], the result is chosen by what [str(e)] contains, up
    to case, in this order: "out of memory" gives the out-of-memory
    guidance; otherwise "connection" gives the network guidance;
    otherwise the processing-error message followed by [str(e)] itself. *)
Theorem inference_fault_classified (image : Image) (s : state) (t : trace)
    (h : Handle) (i : Image) (e : PyExn) :
  hist (snd (generate_caption env (Some image) s)) = t ++ [EvInfer h i] ->
  call_pipeline env t h i = Raise e ->
  exn_is_Exception e = true ->
  (ci_occurs pat_out_of_memory (exn_str e) ->
   fst (generate_caption env (Some image) s) = Return Msg.out_of_memory)
  /\ (~ ci_occurs pat_out_of_memory (exn_str e) ->
      ci_occurs pat_connection (exn_str e) ->
      fst (generate_caption env (Some image) s) = Return Msg.network)
  /\ (~ ci_occurs pat_out_of_memory (exn_str e) ->
      ~ ci_occurs pat_connection (exn_str e) ->
      fst (generate_caption env (Some image) s)
      = Return (Msg.processing_prefix ++ exn_str e)).
Proof.
  intros Hrun Hcall He.
  rewrite (inference_run _ _ _ _ _ Hrun), Hcall, He.
  apply caption_except_classes.
Qed.

(** C10: when [str(e)] contains both "out of memory" and "connection",
    up to case, the result is the out-of-memory guidance: that test
    comes first. *)
Theorem out_of_memory_takes_precedence (image : Image) (s : state)
    (t : trace) (h : Handle) (i : Image) (e : PyExn) :
  hist (snd (generate_caption env (Some image) s)) = t ++ [EvInfer h i] ->
  call_pipeline env t h i = Raise e ->
  exn_is_Exception e = true ->
  ci_occurs pat_out_of_memory (exn_str e) ->
  ci_occurs pat_connection (exn_str e) ->
  fst (generate_caption env (Some image) s) = Return Msg.out_of_memory.
Proof.
  intros Hrun Hcall He Hoom _.
  rewrite (inference_run _ _ _ _ _ Hrun), Hcall, He.
  apply caption_except_classes, Hoom.
Qed.

(** C7: in a request where the pipeline answers with at least one
    candidate, the result is the success marker followed by the
    [generated_text] of the first candidate without the whitespace at its
    two ends: what is removed is whitespace only, and what remains
    neither starts nor ends with whitespace.  For the text
    "  a dog running  " the result is the marker followed by
    "a dog running". *)
Theorem first_candidate_caption (image : Image) (s : state) (t : trace)
    (h : Handle) (i : Image) (first : Candidate) (rest : list Candidate)
    (text : str) :
  hist (snd (generate_caption env (Some image) s)) = t ++ [EvInfer h i] ->
  call_pipeline env t h i = Return (first :: rest) ->
  first !! generated_text = Some text ->
  fst (generate_caption env (Some image) s)
  = Return (Msg.success_marker ++ strip text)
  /\ (exists l r, text = l ++ strip text ++ r
                  /\ forallb is_space l = true
                  /\ forallb is_space r = true)
  /\ (forall c, head (strip text) = Some c -> is_space c = false)
  /\ (forall c, last (strip text) = Some c -> is_space c = false)
  /\ (text = ascii_text "  a dog running  " ->
      fst (generate_caption env (Some image) s)
      = Return (Msg.success_marker ++ ascii_text "a dog running")).
Proof.
  intros Hrun Hcall Hkey.
  assert (Hres : fst (generate_caption env (Some image) s)
                 = Return (Msg.success_marker ++ strip text)).
  { rewrite (inference_run _ _ _ _ _ Hrun), Hcall, Hkey. reflexivity. }
  split; [exact Hres|]. split; [apply strip_split|].
  split; [apply strip_head|]. split; [apply strip_last|].
  intros ->. rewrite Hres. reflexivity.
Qed.


Lemma inferences_record_infer (h : Handle) (i : Image) (s : state) :
  inferences (hist (record (EvInfer h i) s)) = inferences (hist s) ++ [i].
Proof. unfold inferences, record. cbn [hist]. rewrite omap_app. reflexivity. Qed.

Lemma inferences_record_convert (i : Image) (m : str) (s : state) :
  inferences (hist (record (EvConvert i m) s)) = inferences (hist s).
Proof.
  unfold inferences, record. cbn [hist]. rewrite omap_app. apply app_nil_r.
Qed.

(** With PIL's contract for [convert], every image that a request
    passes to the pipeline has mode RGB; and when the uploaded image is
    not RGB, what is passed is the result of converting it to RGB. *)
Lemma passed_images_rgb (image : option Image) (s : state) :
  convert_sets_mode env ->
  exists new,
    inferences (hist (snd (generate_caption env image s)))
    = inferences (hist s) ++ new
    /\ Forall (fun i => mode i = RGB) new
    /\ (forall uploaded, image = Some uploaded -> mode uploaded <> RGB ->
        Forall (fun i => exists t, convert env t uploaded RGB = Return i) new).
Proof.
  intros Hpil.
  destruct image as [image|].
  2:{ exists []. split; [symmetry; apply app_nil_r|]. split; constructor. }
  rewrite generate_caption_some.
  pose proof (load_model_inferences env s) as Hload.
  destruct (load_model env s) as [[[|]|e0] s1] eqn:Hl; cbn [snd] in *.
  2,3: exists []; rewrite Hload;
       (split; [symmetry; apply app_nil_r|]); split; constructor.
  destruct (load_model_true _ _ _ Hl) as [h0 Hc].
  unfold try_except. rewrite (caption_try_eq _ _ _ Hc). unfold infer_on.
  split_answers; rewrite ?caption_except_eq; cbn [fst snd];
    rewrite ?inferences_record_infer, ?inferences_record_convert, Hload;
    try (exists []; (split; [symmetry; apply app_nil_r|]); split; constructor);
    match goal with
    | |- context [inferences (hist s) ++ [?i]] => exists [i]
    end;
    (split; [reflexivity|]); split;
    try (intros uploaded [= <-] Hmode; repeat constructor; eauto;
         match goal with
         | H : bool_decide _ = true |- _ =>
             apply bool_decide_eq_true in H; contradiction
         end);
    repeat constructor;
    first [ match goal with
            | H : bool_decide _ = true |- _ =>
                apply bool_decide_eq_true in H; exact H
            end
          | eapply Hpil; eassumption ].
Qed.

(** C8: once the model is loaded, an image that is not RGB is
    converted to RGB first, and the pipeline is then called on the
    result of that conversion, which by PIL's contract has mode RGB; an
    RGB image goes to the pipeline as it is, without conversion; and
    when the conversion raises the pipeline is not called.  So every
    image that a request passes to the pipeline has mode RGB. *)
Theorem inference_gets_rgb (image : option Image) (s : state) :
  convert_sets_mode env ->
  (exists new,
     inferences (hist (snd (generate_caption env image s)))
     = inferences (hist s) ++ new
     /\ Forall (fun i => mode i = RGB) new
     /\ (forall uploaded, image = Some uploaded -> mode uploaded <> RGB ->
         Forall (fun i => exists t, convert env t uploaded RGB = Return i)
                new))
  /\ (forall uploaded s1,
        image = Some uploaded ->
        load_model env s = (Return true, s1) ->
        exists h,
          caption_pipeline (self s1) = Some h
          /\ (mode uploaded = RGB ->
              hist (snd (generate_caption env image s))
              = hist s1 ++ [EvInfer h uploaded])
          /\ (mode uploaded <> RGB ->
              match convert env (hist s1) uploaded RGB with
              | Return converted =>
                  mode converted = RGB
                  /\ hist (snd (generate_caption env image s))
                     = hist s1 ++ [EvConvert uploaded RGB;
                                   EvInfer h converted]
              | Raise _ =>
                  hist (snd (generate_caption env image s))
                  = hist s1 ++ [EvConvert uploaded RGB]
              end)).
Proof.
  intros Hpil. split; [apply passed_images_rgb, Hpil|].
  intros uploaded s1 -> Hl.
  destruct (load_model_true _ _ _ Hl) as [h Hc]. exists h.
  split; [exact Hc|].
  destruct (inference_reached uploaded s s1 h Hl Hc) as [Hrgb Hconv].
  split; [exact Hrgb|]. intros Hmode.
  destruct (convert env (hist s1) uploaded RGB) as [converted|e] eqn:Hcv.
  - split; [exact (Hpil _ _ _ _ Hcv)|].
    rewrite (Hconv converted Hmode eq_refl), <- app_assoc. reflexivity.
  - rewrite generate_caption_some, Hl.
    unfold try_except. rewrite (caption_try_eq _ _ _ Hc).
    rewrite (bool_decide_eq_false_2 _ Hmode), Hcv.
    destruct (exn_is_Exception e); rewrite ?caption_except_eq; reflexivity.
Qed.

(** The attributes of the instance change inside [load_model] only. *)
Lemma generate_caption_self (image : Image) (s : state) :
  self (snd (generate_caption env (Some image) s))
  = self (snd (load_model env s)).
Proof.
  rewrite generate_caption_some.
  destruct (load_model env s) as [[[|]|e0] s1] eqn:Hl; try reflexivity.
  destruct (load_model_true _ _ _ Hl) as [h0 Hc].
  unfold try_except. rewrite (caption_try_eq _ _ _ Hc). unfold infer_on.
  split_answers; rewrite ?caption_except_eq; reflexivity.
Qed.

End Caption.

(** ** Device fallback and caching *)

Section Fallback.

Variable env : collaborators.

Lemma constructions_app (t1 t2 : trace) :
  constructions (t1 ++ t2) = constructions t1 ++ constructions t2.
Proof. apply omap_app. Qed.

(** The device of a process that is on the CPU stays the CPU, whatever
    the requests. *)
Lemma serve_keeps_cpu (requests : list (option Image)) (s : state) :
  device (self s) = (-1)%Z -> device (self (serve env requests s)) = (-1)%Z.
Proof.
  revert s. induction requests as [|image rest IH]; intros s Hs; [exact Hs|].
  cbn [serve]. apply IH. destruct image as [image|]; [|exact Hs].
  rewrite generate_caption_self.
  destruct (load_model_device env s) as [H|H]; congruence.
Qed.

(** Calls with a cached pipeline: all return [True], and neither the
    instance nor the list of constructions changes. *)
Lemma load_model_times_cached (n : nat) (s : state) (h : Handle) :
  caption_pipeline (self s) = Some h ->
  fst (load_model_times env n s) = replicate n (Return true)
  /\ self (snd (load_model_times env n s)) = self s
  /\ constructions (hist (snd (load_model_times env n s)))
     = constructions (hist s).
Proof.
  revert s. induction n as [|n IH]; intros s Hc; [repeat split|].
  cbn [load_model_times]. rewrite (load_model_cached env s h Hc).
  destruct (IH (record EvLoadModel s) Hc) as (Hr & Hself & Hcons).
  destruct (load_model_times env n (record EvLoadModel s)) as [rs s2].
  cbn [fst snd] in *. rewrite Hr, Hself, Hcons.
  repeat split. unfold record. cbn [hist].
  rewrite constructions_app. apply app_nil_r.
Qed.

(** C3, as amended: when the first construction fails with the GPU as
    device, [load_model] tries once more, with the CPU; if that
    succeeds, the pipeline is cached and the device becomes the CPU; if
    that fails too, [load_model] returns [False], nothing is cached and
    the device is still the GPU.  When the first construction fails with
    another device, [load_model] returns [False] without a second
    attempt.  And the device of a process that is on the CPU stays the
    CPU for every sequence of later requests. *)
Theorem device_fallback_policy :
  (forall s e,
     caption_pipeline (self s) = None ->
     device (self s) = 0%Z ->
     pipeline env (hist s ++ [EvLoadModel]) (model_name (self s)) 0%Z
       = Raise e ->
     exn_is_Exception e = true ->
     constructions (hist (snd (load_model env s)))
     = constructions (hist s) ++ [0%Z; (-1)%Z]
     /\ match pipeline env
                (hist s ++ [EvLoadModel; EvPipeline (model_name (self s)) 0%Z])
                (model_name (self s)) (-1)%Z with
        | Return h =>
            fst (load_model env s) = Return true
            /\ caption_pipeline (self (snd (load_model env s))) = Some h
            /\ device (self (snd (load_model env s))) = (-1)%Z
        | Raise e2 =>
            exn_is_Exception e2 = true ->
            fst (load_model env s) = Return false
            /\ caption_pipeline (self (snd (load_model env s))) = None
            /\ device (self (snd (load_model env s))) = 0%Z
        end)
  /\ (forall s e,
        caption_pipeline (self s) = None ->
        device (self s) <> 0%Z ->
        pipeline env (hist s ++ [EvLoadModel]) (model_name (self s))
          (device (self s)) = Raise e ->
        exn_is_Exception e = true ->
        fst (load_model env s) = Return false
        /\ self (snd (load_model env s)) = self s
        /\ constructions (hist (snd (load_model env s)))
           = constructions (hist s) ++ [device (self s)])
  /\ (forall requests s,
        device (self s) = (-1)%Z ->
        device (self (serve env requests s)) = (-1)%Z).
Proof.
  split; [|split].
  - intros s e Hc Hd Hp He. split.
    { rewrite (load_model_retries_once env s e Hc Hd Hp He).
      rewrite constructions_app. reflexivity. }
    destruct (pipeline env (hist s ++ [EvLoadModel; _]) _ _) as [h|e2] eqn:Hp2.
    + rewrite (load_model_falls_back env s e h Hc Hd Hp He Hp2).
      repeat split.
    + intros He2.
      rewrite (load_model_fallback_fails env s e e2 Hc Hd Hp He Hp2 He2).
      cbn [fst snd self]. auto.
  - intros s e Hc Hd Hp He.
    rewrite (load_model_fails_on_cpu env s e Hc Hd Hp He).
    cbn [fst snd hist self]. rewrite constructions_app. repeat split.
  - intros requests s. apply serve_keeps_cpu.
Qed.

(** Calls that start without a pipeline, the construction succeeding. *)
Lemma load_model_times_first (n : nat) (s : state) (h : Handle) :
  caption_pipeline (self s) = None ->
  pipeline env (hist s ++ [EvLoadModel]) (model_name (self s)) (device (self s))
    = Return h ->
  fst (load_model_times env (S n) s) = replicate (S n) (Return true)
  /\ caption_pipeline (self (snd (load_model_times env (S n) s))) = Some h
  /\ constructions (hist (snd (load_model_times env (S n) s)))
     = constructions (hist s) ++ [device (self s)].
Proof.
  intros Hc Hp. cbn [load_model_times].
  rewrite (load_model_constructs env s h Hc Hp).
  match goal with
  | |- context [load_model_times env n ?s1] =>
      destruct (load_model_times_cached n s1 h eq_refl) as (Hr & Hself & Hcons);
      destruct (load_model_times env n s1) as [rs s2]
  end.
  cbn [fst snd hist self caption_pipeline] in *.
  rewrite Hr, Hself, Hcons. cbn [caption_pipeline].
  rewrite app_assoc, constructions_app, constructions_app.
  cbn. rewrite app_nil_r. repeat split.
Qed.

(** C4: once a pipeline is cached, [load_model] returns [True] at once:
    the instance is unchanged and no collaborator is called.  So [n]
    calls in a row ([n] at least 1, in particular more than 1) whose
    first construction succeeds all return [True], construct exactly
    once, and after each of them the cached pipeline is the one that was
    constructed.  [load_model] returns a boolean; the handle is the
    attribute [caption_pipeline]. *)
Theorem load_model_idempotent :
  (forall s h,
     caption_pipeline (self s) = Some h ->
     load_model env s = (Return true, record EvLoadModel s))
  /\ (forall s h n,
        caption_pipeline (self s) = None ->
        pipeline env (hist s ++ [EvLoadModel]) (model_name (self s))
          (device (self s)) = Return h ->
        (1 <= n)%nat ->
        fst (load_model_times env n s) = replicate n (Return true)
        /\ constructions (hist (snd (load_model_times env n s)))
           = constructions (hist s) ++ [device (self s)]
        /\ (forall k, (1 <= k <= n)%nat ->
              caption_pipeline (self (snd (load_model_times env k s)))
              = Some h)).
Proof.
  split; [apply load_model_cached|].
  intros s h n Hc Hp Hn.
  destruct n as [|n]; [lia|].
  destruct (load_model_times_first n s h Hc Hp) as (Hr & _ & Hcons).
  split; [exact Hr|]. split; [exact Hcons|].
  intros k Hk. destruct k as [|k]; [lia|].
  apply (load_model_times_first k s h Hc Hp).
Qed.

End Fallback.

(** ** Callers that overlap *)

Section Callers.

Import Threads.

Variable env : collaborators.

Local Ltac go :=
  repeat progress (cbn; rewrite ?app_assoc;
                   try match goal with
                       | H : caption_pipeline _ = _ |- _ => rewrite H
                       end).

(** A caller that runs alone does what [load_model] does. *)
Lemma run_alone_load_model (s : state) :
  run_alone env 7 AtEntry s =
    (Finished (fst (load_model env s))
              (caption_pipeline (self (snd (load_model env s)))),
     snd (load_model env s)).
Proof.
  unfold_methods. cbn [run_alone step]. unfold store_pipeline, record.
  destruct (caption_pipeline (self s)) eqn:Hc; go; [reflexivity|].
  destruct (pipeline env _ _ _) as [h|e]; go.
  { rewrite <- app_assoc. reflexivity. }
  destruct (exn_is_Exception e); go; [|reflexivity].
  destruct (device (self s) =? 0)%Z; go; [|reflexivity].
  destruct (pipeline env _ _ (-1)%Z) as [h|e2]; go; [reflexivity|].
  destruct (exn_is_Exception e2); go; reflexivity.
Qed.

Lemma run_app (a b : list nat) (callers : list pc) (s : state) :
  run env (a ++ b) callers s
  = run env b (fst (run env a callers s)) (snd (run env a callers s)).
Proof.
  revert callers s. induction a as [|i a IH]; intros callers s; [reflexivity|].
  cbn [app run]. destruct (callers !! i) as [p|]; [|apply IH].
  destruct (step env p s) as [p' s']. apply IH.
Qed.

(** A caller scheduled [fuel] times in a row runs alone for that long. *)
Lemma run_replicate (fuel i : nat) (callers : list pc) (p : pc) (s : state) :
  callers !! i = Some p ->
  run env (replicate fuel i) callers s
  = (<[i := fst (run_alone env fuel p s)]> callers,
     snd (run_alone env fuel p s)).
Proof.
  revert callers p s. induction fuel as [|fuel IH]; intros callers p s Hi.
  - cbn. rewrite list_insert_id by exact Hi. reflexivity.
  - cbn [replicate run run_alone]. rewrite Hi.
    destruct (step env p s) as [p' s'].
    rewrite (IH _ p').
    + rewrite list_insert_insert_eq. reflexivity.
    + apply list_lookup_insert_eq. eapply lookup_lt_Some, Hi.
Qed.

(** Callers that come one by one after a pipeline has been cached. *)
Lemma run_one_by_one_cached (n : nat) (done : list pc) (s : state)
    (h : Handle) :
  caption_pipeline (self s) = Some h ->
  exists s',
    run env (flat_map (fun i => replicate 7 i) (seq (length done) n))
        (done ++ replicate n AtEntry) s
    = (done ++ replicate n (Finished (Return true) (Some h)), s')
    /\ constructions (hist s') = constructions (hist s).
Proof.
  revert done s. induction n as [|n IH]; intros done s Hc.
  - exists s. split; reflexivity.
  - cbn [seq flat_map]. rewrite run_app.
    rewrite (run_replicate 7 (length done) _ AtEntry).
    2:{ rewrite lookup_app_r by lia. rewrite Nat.sub_diag. reflexivity. }
    rewrite run_alone_load_model, (load_model_cached env s h Hc).
    cbn [fst snd]. change (self (record EvLoadModel s)) with (self s).
    rewrite Hc. rewrite insert_app_r_alt by lia. rewrite Nat.sub_diag.
    change (replicate (S n) AtEntry) with (AtEntry :: replicate n AtEntry).
    change (replicate (S n) (Finished (Return true) (Some h)))
      with (Finished (Return true) (Some h)
            :: replicate n (Finished (Return true) (Some h))).
    cbn [insert list_insert].
    destruct (IH (done ++ [Finished (Return true) (Some h)])
                 (record EvLoadModel s) Hc) as (s' & Hrun & Hcons).
    rewrite length_app, Nat.add_1_r in Hrun. cbn [length] in Hrun.
    rewrite <- !app_assoc in Hrun. cbn [app] in Hrun.
    exists s'. split; [exact Hrun|].
    rewrite Hcons. unfold record. cbn [hist].
    rewrite constructions_app. apply app_nil_r.
Qed.

(** Callers that do not overlap, and two callers that both make the
    test before either stores a pipeline. *)
Lemma callers_two_schedules :
  (forall s h n,
     caption_pipeline (self s) = None ->
     pipeline env (hist s ++ [EvLoadModel]) (model_name (self s))
       (device (self s)) = Return h ->
     (1 <= n)%nat ->
     fst (run env (one_by_one n) (replicate n AtEntry) s)
     = replicate n (Finished (Return true) (Some h))
     /\ constructions
          (hist (snd (run env (one_by_one n) (replicate n AtEntry) s)))
        = constructions (hist s) ++ [device (self s)])
  /\ (forall s h0 h1,
        caption_pipeline (self s) = None ->
        pipeline env (hist s ++ [EvLoadModel; EvLoadModel])
          (model_name (self s)) (device (self s)) = Return h0 ->
        pipeline env
          (hist s ++ [EvLoadModel; EvLoadModel;
                      EvPipeline (model_name (self s)) (device (self s))])
          (model_name (self s)) (device (self s)) = Return h1 ->
        fst (run env race [AtEntry; AtEntry] s)
        = [Finished (Return true) (Some h0); Finished (Return true) (Some h1)]
        /\ constructions (hist (snd (run env race [AtEntry; AtEntry] s)))
           = constructions (hist s) ++ [device (self s); device (self s)]).
Proof.
  split.
  - intros s h n Hc Hp Hn. destruct n as [|n]; [lia|].
    unfold one_by_one. cbn [seq flat_map]. rewrite run_app.
    rewrite (run_replicate 7 0 _ AtEntry) by reflexivity.
    rewrite run_alone_load_model, (load_model_constructs env s h Hc Hp).
    cbn [fst snd self caption_pipeline].
    change (replicate (S n) AtEntry) with (AtEntry :: replicate n AtEntry).
    cbn [insert list_insert].
    match goal with
    | |- context [run env _ _ ?s1] =>
        destruct (run_one_by_one_cached n
                    [Finished (Return true) (Some h)] s1 h eq_refl)
          as (s' & Hrun & Hcons)
    end.
    cbn [length app] in Hrun, Hcons. cbn [app]. rewrite Hrun. cbn [fst snd].
    split; [reflexivity|]. rewrite Hcons. cbn [hist].
    rewrite constructions_app. reflexivity.
  - intros s h0 h1 Hc Hp0 Hp1. unfold race.
    cbn [run lookup list_lookup step insert list_insert]. rewrite Hc.
    change (self (record EvLoadModel s)) with (self s). rewrite Hc.
    cbn [step record self hist]. rewrite <- !app_assoc. cbn [app].
    rewrite Hp0. cbn [step record self hist]. rewrite <- !app_assoc.
    cbn [app]. rewrite Hp1.
    cbn [step record self hist store_pipeline set_caption_pipeline snd fst
         caption_pipeline device model_name].
    split; [reflexivity|].
    rewrite !constructions_app. cbn. rewrite ?app_nil_r, <- ?app_assoc.
    reflexivity.
Qed.


(** *** Callers that overlap, in general *)

Lemma count_insert (f : pc -> nat) (callers : list pc) (i : nat) (p p' : pc) :
  callers !! i = Some p ->
  (sum_list_with f (<[i:=p']> callers) + f p
   = sum_list_with f callers + f p')%nat.
Proof.
  revert i. induction callers as [|q callers IH]; intros i Hi; [discriminate|].
  destruct i as [|i]; cbn in *.
  - injection Hi as ->. rewrite <- !Nat.add_assoc.
    rewrite (Nat.add_comm (f p')), (Nat.add_comm (f p)).
    rewrite <- !Nat.add_assoc. f_equal. apply Nat.add_comm.
  - rewrite <- !Nat.add_assoc. f_equal. exact (IH i Hi).
Qed.

(** A cached pipeline stays cached, statement after statement. *)
Lemma step_keeps_cache (p : pc) (s : state) (h : Handle) :
  caption_pipeline (self s) = Some h ->
  exists h', caption_pipeline (self (snd (step env p s))) = Some h'.
Proof.
  intros Hc. destruct p; cbn [step];
    repeat match goal with
           | |- context [match ?x with _ => _ end] => destruct x eqn:?
           end;
    cbn [fst snd record self store_pipeline set_caption_pipeline set_device
         caption_pipeline]; eauto; discriminate.
Qed.

Lemma run_keeps_cache (schedule : list nat) (callers : list pc) (s : state)
    (h : Handle) :
  caption_pipeline (self s) = Some h ->
  exists h', caption_pipeline (self (snd (run env schedule callers s))) = Some h'.
Proof.
  revert callers s h. induction schedule as [|i rest IH]; intros callers s h Hc.
  { cbn [run snd]. eauto. }
  cbn [run]. destruct (callers !! i) as [p|]; [|eapply IH, Hc].
  destruct (step_keeps_cache p s h Hc) as [h' Hc'].
  destruct (step env p s) as [p' s']. eapply IH, Hc'.
Qed.

Lemma constructions_recorded (ev : event) (s : state) :
  length (constructions (hist (record ev s)))
  = (length (constructions (hist s))
     + match ev with EvPipeline _ _ => 1 | _ => 0 end)%nat.
Proof.
  unfold record. cbn [hist]. rewrite constructions_app, length_app.
  destruct ev; reflexivity.
Qed.

(** One statement never brings the count of constructions made and of
    callers about to construct down. *)
Lemma step_constructs (p : pc) (s : state) :
  (length (constructions (hist s)) + about_to_construct p
   <= length (constructions (hist (snd (step env p s))))
      + about_to_construct (fst (step env p s)))%nat.
Proof.
  destruct p; cbn [step about_to_construct];
    repeat match goal with
           | |- context [match ?x with _ => _ end] => destruct x
           end;
    cbn [fst snd about_to_construct store_pipeline set_caption_pipeline
         set_device hist];
    rewrite ?constructions_recorded; lia.
Qed. 

(** Name the counts before the arithmetic. *)
Local Ltac hide_counts :=
  repeat match goal with
         | H : context [sum_list_with ?f ?l] |- _ =>
             let x := fresh "t" in set (x := sum_list_with f l) in *; clearbody x
         | |- context [sum_list_with ?f ?l] =>
             let x := fresh "t" in set (x := sum_list_with f l) in *; clearbody x
         | H : context [about_to_construct ?p] |- _ =>
             let x := fresh "a" in set (x := about_to_construct p) in *; clearbody x
         | H : context [may_construct ?p] |- _ =>
             let x := fresh "a" in set (x := may_construct p) in *; clearbody x
         | H : context [holds_unstored ?p] |- _ =>
             let x := fresh "a" in set (x := holds_unstored p) in *; clearbody x
         end.

Lemma run_constructs (schedule : list nat) (callers : list pc) (s : state) :
  (length (constructions (hist s)) + sum_list_with about_to_construct callers
   <= length (constructions (hist (snd (run env schedule callers s))))
      + sum_list_with about_to_construct (fst (run env schedule callers s)))%nat.
Proof.
  revert callers s. induction schedule as [|i rest IH]; intros callers s.
  { cbn [run fst snd]. lia. }
  cbn [run]. destruct (callers !! i) as [p|] eqn:Hi; [|apply IH].
  pose proof (step_constructs p s) as Hstep.
  destruct (step env p s) as [p' s']. cbn [fst snd] in Hstep.
  pose proof (count_insert about_to_construct callers i p p' Hi) as Hins.
  specialize (IH (<[i:=p']> callers) s'). hide_counts. lia.
Qed.

Lemma on_success_path_mono (s s' : state) (p : pc) :
  (forall h, caption_pipeline (self s) = Some h ->
             exists h', caption_pipeline (self s') = Some h') ->
  on_success_path s p -> on_success_path s' p.
Proof.
  intros Hmono. destruct p; cbn [on_success_path]; auto.
  intros [-> [h Hh]]. split; [reflexivity|]. eapply Hmono, Hh.
Qed.

(** One statement of a caller when every construction succeeds. *)
Lemma step_success (p : pc) (s : state) :
  always_constructs env ->
  on_success_path s p ->
  on_success_path (snd (step env p s)) (fst (step env p s))
  /\ (length (constructions (hist (snd (step env p s))))
      + may_construct (fst (step env p s))
      <= length (constructions (hist s)) + may_construct p)%nat.
Proof.
  intros Hok Hp. destruct p; cbn [on_success_path] in Hp; try contradiction.
  - cbn [step]. destruct (caption_pipeline (self s)) as [h|] eqn:Hc;
      cbn [fst snd on_success_path may_construct];
      rewrite constructions_recorded.
    + split; [|lia]. split; [reflexivity|]. exists h. exact Hc.
    + split; [exact I | lia].
  - cbn [step].
    destruct (Hok (hist s) (model_name (self s)) (device (self s))) as [h ->].
    cbn [fst snd on_success_path may_construct].
    rewrite constructions_recorded. split; [exact I | lia].
  - cbn [step fst snd on_success_path may_construct store_pipeline
         set_caption_pipeline self caption_pipeline hist].
    split; [|lia]. split; [reflexivity|]. eauto.
  - destruct Hp as [-> [h Hh]].
    cbn [step fst snd on_success_path may_construct].
    split; [|lia]. split; [reflexivity|]. eauto.
  - cbn [step fst snd on_success_path may_construct]. split; [exact Hp | lia].
Qed.

Lemma run_success (schedule : list nat) (callers : list pc) (s : state) :
  always_constructs env ->
  Forall (on_success_path s) callers ->
  Forall (on_success_path (snd (run env schedule callers s)))
         (fst (run env schedule callers s))
  /\ (length (constructions (hist (snd (run env schedule callers s))))
      + sum_list_with may_construct (fst (run env schedule callers s))
      <= length (constructions (hist s))
         + sum_list_with may_construct callers)%nat.
Proof.
  intros Hok. revert callers s.
  induction schedule as [|i rest IH]; intros callers s Hall.
  { cbn [run fst snd]. split; [exact Hall | lia]. }
  cbn [run]. destruct (callers !! i) as [p|] eqn:Hi; [|apply IH, Hall].
  assert (Hp : on_success_path s p).
  { rewrite Forall_forall in Hall. eapply Hall, list_elem_of_lookup_2, Hi. }
  destruct (step_success p s Hok Hp) as [Hp' Hstep].
  pose proof (step_keeps_cache p s) as Hkeep.
  destruct (step env p s) as [p' s']. cbn [fst snd] in *.
  pose proof (count_insert may_construct callers i p p' Hi) as Hins.
  destruct (IH (<[i:=p']> callers) s') as [Hall' Hrun].
  { apply Forall_insert; [|exact Hp'].
    eapply Forall_impl; [exact Hall|].
    intros q. apply on_success_path_mono. exact Hkeep. }
  split; [exact Hall'|]. hide_counts. lia.
Qed.

(** While no pipeline has been stored, a caller that has made the test
    is about to construct or holds a pipeline that it has not stored,
    and the constructions made are the pipelines so held. *)
Lemma run_before_store (pre : list nat) (callers : list pc) (s : state) :
  always_constructs env ->
  Forall (fun p => p = AtEntry \/ p = AtConstruct \/ exists h, p = AtStore h)
         callers ->
  caption_pipeline (self (snd (run env pre callers s))) = None ->
  Forall (fun p => p = AtEntry \/ p = AtConstruct \/ exists h, p = AtStore h)
         (fst (run env pre callers s))
  /\ (length (constructions (hist (snd (run env pre callers s))))
      + sum_list_with holds_unstored callers
      = length (constructions (hist s))
        + sum_list_with holds_unstored (fst (run env pre callers s)))%nat.
Proof.
  intros Hok. revert callers s.
  induction pre as [|i rest IH]; intros callers s Hall Hnone.
  { cbn [run fst snd]. split; [exact Hall | lia]. }
  cbn [run] in *. destruct (callers !! i) as [p|] eqn:Hi; [|apply IH; assumption].
  assert (Hp : p = AtEntry \/ p = AtConstruct \/ exists h, p = AtStore h).
  { rewrite Forall_forall in Hall. eapply Hall, list_elem_of_lookup_2, Hi. }
  assert (Hstep : caption_pipeline (self (snd (step env p s))) = None ->
            (fst (step env p s) = AtEntry \/ fst (step env p s) = AtConstruct
             \/ exists h, fst (step env p s) = AtStore h)
            /\ (length (constructions (hist (snd (step env p s))))
                + holds_unstored p
                = length (constructions (hist s))
                  + holds_unstored (fst (step env p s)))%nat).
  { destruct Hp as [->|[->|[h ->]]]; cbn [step].
    - destruct (caption_pipeline (self s)) eqn:Hc;
        cbn [fst snd record self holds_unstored]; [congruence|].
      intros _. rewrite constructions_recorded. split; [auto | lia].
    - destruct (Hok (hist s) (model_name (self s)) (device (self s)))
        as [h ->].
      cbn [fst snd holds_unstored]. intros _.
      rewrite constructions_recorded. split; [eauto | lia].
    - cbn [fst snd store_pipeline set_caption_pipeline self caption_pipeline].
      discriminate. }
  assert (Hs' : caption_pipeline (self (snd (step env p s))) = None).
  { destruct (caption_pipeline (self (snd (step env p s)))) as [h|] eqn:Hc;
      [|reflexivity].
    destruct (step env p s) as [p' s']. cbn [snd] in Hc.
    destruct (run_keeps_cache rest (<[i:=p']> callers) s' h Hc) as [h' Hh'].
    congruence. }
  destruct (Hstep Hs') as [Hp' Hcount]. clear Hstep.
  destruct (step env p s) as [p' s']. cbn [fst snd] in *.
  pose proof (count_insert holds_unstored callers i p p' Hi) as Hins.
  destruct (IH (<[i:=p']> callers) s') as [Hall' Hrun].
  { apply Forall_insert; assumption. }
  { exact Hnone. }
  split; [exact Hall'|]. hide_counts. lia.
Qed.

Lemma past_check_split (callers : list pc) :
  Forall (fun p => p = AtEntry \/ p = AtConstruct \/ exists h, p = AtStore h)
         callers ->
  sum_list_with past_check callers
  = (sum_list_with about_to_construct callers
     + sum_list_with holds_unstored callers)%nat.
Proof.
  induction 1 as [|p callers Hp _ IH]; [reflexivity|].
  cbn [sum_list_with]. rewrite IH.
  destruct Hp as [->|[->|[h ->]]];
    cbn [past_check about_to_construct holds_unstored]; lia.
Qed.

Lemma finished_counts (callers : list pc) :
  Forall (fun p => exists r seen, p = Finished r seen) callers ->
  sum_list_with about_to_construct callers = 0%nat
  /\ sum_list_with may_construct callers = 0%nat.
Proof.
  induction 1 as [|p callers (r & seen & ->) _ [IH1 IH2]];
    [split; reflexivity|].
  cbn [sum_list_with about_to_construct may_construct].
  rewrite IH1, IH2. split; reflexivity.
Qed.

Lemma replicate_counts (n : nat) :
  sum_list_with may_construct (replicate n AtEntry) = n
  /\ sum_list_with holds_unstored (replicate n AtEntry) = 0%nat
  /\ sum_list_with past_check (replicate n AtConstruct) = n.
Proof.
  induction n as [|n (IH1 & IH2 & IH3)]; [repeat split|].
  cbn [replicate sum_list_with may_construct holds_unstored past_check].
  rewrite IH1, IH2, IH3. repeat split.
Qed.

(** Callers that overlap in any way.  Up to the end of [pre] no pipeline
    has been stored; [post] lets every caller finish. *)
Lemma overlapping_callers (s : state) (n : nat) (pre post : list nat) :
  always_constructs env ->
  caption_pipeline (self (snd (run env pre (replicate n AtEntry) s))) = None ->
  Forall (fun p => exists r seen, p = Finished r seen)
         (fst (run env (pre ++ post) (replicate n AtEntry) s)) ->
  (length (constructions (hist s))
   + sum_list_with past_check (fst (run env pre (replicate n AtEntry) s))
   <= length (constructions
                (hist (snd (run env (pre ++ post) (replicate n AtEntry) s)))))%nat
  /\ (length (constructions
                (hist (snd (run env (pre ++ post) (replicate n AtEntry) s))))
      <= length (constructions (hist s)) + n)%nat
  /\ Forall (fun p => exists h, p = Finished (Return true) (Some h))
            (fst (run env (pre ++ post) (replicate n AtEntry) s)).
Proof.
  intros Hok Hnone Hfin.
  assert (Hstart : Forall (fun p => p = AtEntry \/ p = AtConstruct
                                    \/ exists h, p = AtStore h)
                          (replicate n AtEntry))
    by (apply Forall_replicate; auto).
  destruct (run_before_store pre _ s Hok Hstart Hnone) as [Hearly Hpre].
  pose proof (past_check_split _ Hearly) as Hk.
  destruct (run_success (pre ++ post) (replicate n AtEntry) s Hok)
    as [Hgood Hupper].
  { apply Forall_replicate. exact I. }
  destruct (replicate_counts n) as (Hmay & Hunstored & _).
  destruct (finished_counts _ Hfin) as [Habout0 Hmay0].
  rewrite Hmay, Hmay0 in Hupper. rewrite Hunstored in Hpre.
  rewrite run_app in *.
  pose proof (run_constructs post
                (fst (run env pre (replicate n AtEntry) s))
                (snd (run env pre (replicate n AtEntry) s))) as Hlower.
  rewrite Habout0 in Hlower.
  split; [|split].
  - rewrite Hk. hide_counts. lia.
  - lia.
  - rewrite Forall_forall in *. intros p Hp.
    destruct (Hfin p Hp) as (r & seen & ->).
    destruct (Hgood _ Hp) as [-> [h ->]]. eauto.
Qed.

(** All callers make the test in turn: all are about to construct and
    nothing is stored. *)
Lemma run_all_check_first (n : nat) (done : list pc) (s : state) :
  caption_pipeline (self s) = None ->
  fst (run env (seq (length done) n) (done ++ replicate n AtEntry) s)
  = done ++ replicate n AtConstruct
  /\ caption_pipeline
       (self (snd (run env (seq (length done) n)
                     (done ++ replicate n AtEntry) s))) = None.
Proof.
  revert done s. induction n as [|n IH]; intros done s Hc.
  { cbn [seq run fst snd]. auto. }
  cbn [seq run]. rewrite lookup_app_r by lia. rewrite Nat.sub_diag.
  cbn [replicate lookup list_lookup step]. rewrite Hc.
  rewrite insert_app_r_alt by lia. rewrite Nat.sub_diag.
  cbn [insert list_insert].
  destruct (IH (done ++ [AtConstruct]) (record EvLoadModel s) Hc)
    as [Hrun Hnone].
  rewrite length_app, Nat.add_1_r in Hrun, Hnone. cbn [length] in Hrun, Hnone.
  rewrite <- !app_assoc in Hrun, Hnone. cbn [app] in Hrun, Hnone.
  split; [rewrite Hrun, <- app_assoc; reflexivity | exact Hnone].
Qed.

(** C9, as amended: [n] first-time callers of [load_model] whose calls
    do not overlap construct exactly once, when that construction
    succeeds, and all find the same pipeline cached when their call
    returns.  Nothing in [load_model] excludes an overlap: two callers
    that both pass the test of the cached pipeline before either stores
    one construct twice, and each finds its own pipeline when its call
    returns.  In general, for any number of callers and any schedule,
    when constructions succeed: every caller that has passed the test
    while no pipeline was stored constructs, so that [k] such callers
    among [n] make at least [k] and at most [n] constructions by the
    time all have returned, and all return [True] with a pipeline
    cached; when all [n] pass the test first there are exactly [n]
    constructions, however the calls interleave afterwards. *)
Theorem callers_one_by_one_or_racing :
  (forall s h n,
     caption_pipeline (self s) = None ->
     pipeline env (hist s ++ [EvLoadModel]) (model_name (self s))
       (device (self s)) = Return h ->
     (1 <= n)%nat ->
     fst (run env (one_by_one n) (replicate n AtEntry) s)
     = replicate n (Finished (Return true) (Some h))
     /\ constructions
          (hist (snd (run env (one_by_one n) (replicate n AtEntry) s)))
        = constructions (hist s) ++ [device (self s)])
  /\ (forall s h0 h1,
        caption_pipeline (self s) = None ->
        pipeline env (hist s ++ [EvLoadModel; EvLoadModel])
          (model_name (self s)) (device (self s)) = Return h0 ->
        pipeline env
          (hist s ++ [EvLoadModel; EvLoadModel;
                      EvPipeline (model_name (self s)) (device (self s))])
          (model_name (self s)) (device (self s)) = Return h1 ->
        fst (run env race [AtEntry; AtEntry] s)
        = [Finished (Return true) (Some h0); Finished (Return true) (Some h1)]
        /\ constructions (hist (snd (run env race [AtEntry; AtEntry] s)))
           = constructions (hist s) ++ [device (self s); device (self s)])
  /\ (forall s n pre post,
        always_constructs env ->
        caption_pipeline (self (snd (run env pre (replicate n AtEntry) s)))
        = None ->
        Forall (fun p => exists r seen, p = Finished r seen)
               (fst (run env (pre ++ post) (replicate n AtEntry) s)) ->
        (length (constructions (hist s))
         + sum_list_with past_check
             (fst (run env pre (replicate n AtEntry) s))
         <= length (constructions
                      (hist (snd (run env (pre ++ post)
                                    (replicate n AtEntry) s)))))%nat
        /\ (length (constructions
                      (hist (snd (run env (pre ++ post)
                                    (replicate n AtEntry) s))))
            <= length (constructions (hist s)) + n)%nat
        /\ Forall (fun p => exists h, p = Finished (Return true) (Some h))
                  (fst (run env (pre ++ post) (replicate n AtEntry) s)))
  /\ (forall s n post,
        always_constructs env ->
        caption_pipeline (self s) = None ->
        Forall (fun p => exists r seen, p = Finished r seen)
               (fst (run env (all_check_first n ++ post)
                       (replicate n AtEntry) s)) ->
        length (constructions
                  (hist (snd (run env (all_check_first n ++ post)
                                (replicate n AtEntry) s))))
        = (length (constructions (hist s)) + n)%nat
        /\ Forall (fun p => exists h, p = Finished (Return true) (Some h))
                  (fst (run env (all_check_first n ++ post)
                          (replicate n AtEntry) s))).
Proof.
  split; [exact (proj1 callers_two_schedules)|].
  split; [exact (proj2 callers_two_schedules)|].
  split; [intros s n pre post; apply overlapping_callers|].
  intros s n post Hok Hc Hfin.
  destruct (run_all_check_first n [] s Hc) as [Hrun Hnone].
  cbn [length app] in Hrun, Hnone.
  destruct (overlapping_callers s n (all_check_first n) post Hok Hnone Hfin)
    as (Hlower & Hupper & Hall).
  unfold all_check_first in *. rewrite Hrun in Hlower.
  destruct (replicate_counts n) as (_ & _ & Hk). rewrite Hk in Hlower.
  split; [lia | exact Hall].
Qed.

End Callers.

(** ** The statements that fail, at concrete inputs *)


(** C3 as stated fails: when the construction fails on the GPU and on
    the CPU, the device is still the GPU after [load_model]. *)
Lemma fallback_switches_device_counterexample :
  ~ fallback_switches_device_claim.
Proof.
  intros claim.
  pose proof (claim Stub.all_broken (Stub.start Stub.all_broken)
                (Stub.RuntimeError "Connection refused")
                eq_refl eq_refl eq_refl eq_refl) as Hdevice.
  vm_compute in Hdevice. discriminate Hdevice.
Qed.

(** C9 as stated fails: two callers scheduled as in [Threads.race]
    construct two pipelines. *)
Lemma single_flight_counterexample : ~ single_flight_claim.
Proof.
  intros claim.
  pose (env := Stub.working "a cat").
  destruct (claim env (Stub.start env) 2%nat Threads.race
              (fst (Threads.run env Threads.race
                      (replicate 2 Threads.AtEntry) (Stub.start env)))
              (snd (Threads.run env Threads.race
                      (replicate 2 Threads.AtEntry) (Stub.start env))))
    as [Hcount _].
  - reflexivity.
  - intros t m d. eexists. reflexivity.
  - apply surjective_pairing.
  - vm_compute. repeat constructor; eauto.
  - lia.
  - vm_compute in Hcount. discriminate Hcount.
Qed.

(** ** The theorems at concrete inputs *)

Lemma working_raises_only_Exception (text : string) :
  raises_only_Exception (Stub.working text).
Proof. repeat split; intros; discriminate. Defined.



(** The GPU is broken: one more construction on the CPU, which becomes
    the device.  Every device is broken: [False], and the device
    remains. *)
Lemma device_fallback_policy_witness :
  (constructions (hist (snd (load_model Stub.gpu_broken
                               (Stub.start Stub.gpu_broken))))
   = [0%Z; (-1)%Z]
   /\ fst (load_model Stub.gpu_broken (Stub.start Stub.gpu_broken))
      = Return true
   /\ caption_pipeline (self (snd (load_model Stub.gpu_broken
                                     (Stub.start Stub.gpu_broken))))
      = Some 1
   /\ device (self (snd (load_model Stub.gpu_broken
                           (Stub.start Stub.gpu_broken)))) = (-1)%Z)
  /\ (fst (load_model Stub.all_broken (Stub.start Stub.all_broken))
      = Return false
      /\ device (self (snd (load_model Stub.all_broken
                              (Stub.start Stub.all_broken)))) = 0%Z)
  /\ fst (load_model Stub.all_broken
            {| self := {| caption_pipeline := None; device := (-1)%Z;
                          model_name := [] |};
               hist := [] |}) = Return false
  /\ device (self (serve Stub.gpu_broken [Some Stub.photo; None; Some Stub.scan]
                     (snd (load_model Stub.gpu_broken
                             (Stub.start Stub.gpu_broken))))) = (-1)%Z.
Proof.
  split; [|split; [|split]].
  - pose proof (proj1 (device_fallback_policy Stub.gpu_broken)
                  (Stub.start Stub.gpu_broken)
                  (Stub.RuntimeError "CUDA error: no kernel image")
                  eq_refl eq_refl eq_refl eq_refl) as [Hcons Hretry].
    split; [exact Hcons | exact Hretry].
  - pose proof (proj1 (device_fallback_policy Stub.all_broken)
                  (Stub.start Stub.all_broken)
                  (Stub.RuntimeError "Connection refused")
                  eq_refl eq_refl eq_refl eq_refl) as [_ Hretry].
    destruct (Hretry eq_refl) as (Hres & _ & Hdev).
    split; [exact Hres | exact Hdev].
  - refine (proj1 (proj1 (proj2 (device_fallback_policy Stub.all_broken))
                     {| self := {| caption_pipeline := None;
                                   device := (-1)%Z; model_name := [] |};
                        hist := [] |}
                     (Stub.RuntimeError "Connection refused")
                     eq_refl _ eq_refl eq_refl)).
    discriminate.
  - apply (proj2 (proj2 (device_fallback_policy Stub.gpu_broken))).
    reflexivity.
Defined.

(** Three calls on a working machine: one construction, the same
    pipeline after each call. *)
Lemma load_model_idempotent_witness :
  fst (load_model_times (Stub.working "a cat") 3
         (Stub.start (Stub.working "a cat")))
  = [Return true; Return true; Return true]
  /\ constructions
       (hist (snd (load_model_times (Stub.working "a cat") 3
                     (Stub.start (Stub.working "a cat")))))
     = [(-1)%Z]
  /\ (forall k, (1 <= k <= 3)%nat ->
        caption_pipeline
          (self (snd (load_model_times (Stub.working "a cat") k
                        (Stub.start (Stub.working "a cat")))))
        = Some 0).
Proof.
  apply (proj2 (load_model_idempotent (Stub.working "a cat"))
           (Stub.start (Stub.working "a cat")) 0 3%nat eq_refl eq_refl).
  lia.
Defined.

Lemma empty_result_message_witness :
  fst (generate_caption Stub.speechless (Some Stub.photo)
         (Stub.start Stub.speechless))
  = Return Msg.empty_result
  /\ (forall error_msg,
        Msg.empty_result <> Msg.processing_prefix ++ error_msg).
Proof.
  apply (empty_result_message Stub.speechless Stub.photo
           (Stub.start Stub.speechless) Stub.first_request 0 Stub.photo);
    reflexivity.
Defined.

Lemma occurs_of_contains (pat s : str) :
  no_capital pat -> contains pat (lower s) = true -> ci_occurs pat s.
Proof. intros Hpat. apply contains_lower, Hpat. Defined.

Lemma not_occurs_of_contains (pat s : str) :
  no_capital pat -> contains pat (lower s) = false -> ~ ci_occurs pat s.
Proof.
  intros Hpat Hno Hocc. apply contains_lower in Hocc; [|exact Hpat].
  congruence.
Defined.

(** One failure of each class. *)
Lemma inference_fault_classified_witness :
  fst (generate_caption Stub.out_of_memory (Some Stub.photo)
         (Stub.start Stub.out_of_memory))
  = Return Msg.out_of_memory
  /\ fst (generate_caption Stub.offline (Some Stub.photo)
            (Stub.start Stub.offline))
     = Return Msg.network
  /\ fst (generate_caption Stub.unreadable (Some Stub.photo)
            (Stub.start Stub.unreadable))
     = Return (Msg.processing_prefix
               ++ ascii_text "cannot identify image file").
Proof.
  split; [|split].
  - apply (proj1 (inference_fault_classified Stub.out_of_memory
                    Stub.photo (Stub.start Stub.out_of_memory)
                    Stub.first_request 0 Stub.photo
                    (Stub.RuntimeError "CUDA Out Of Memory. Tried to allocate 2 GiB")
                    eq_refl eq_refl eq_refl)).
    apply occurs_of_contains; [exact no_capital_out_of_memory | reflexivity].
  - apply (proj1 (proj2 (inference_fault_classified Stub.offline
                    Stub.photo (Stub.start Stub.offline)
                    Stub.first_request 0 Stub.photo
                    (Stub.RuntimeError "HTTPSConnectionPool: Max retries exceeded")
                    eq_refl eq_refl eq_refl))).
    + apply not_occurs_of_contains;
        [exact no_capital_out_of_memory | reflexivity].
    + apply occurs_of_contains; [exact no_capital_connection | reflexivity].
  - apply (proj2 (proj2 (inference_fault_classified Stub.unreadable
                    Stub.photo (Stub.start Stub.unreadable)
                    Stub.first_request 0 Stub.photo
                    (Stub.RuntimeError "cannot identify image file")
                    eq_refl eq_refl eq_refl))).
    + apply not_occurs_of_contains;
        [exact no_capital_out_of_memory | reflexivity].
    + apply not_occurs_of_contains;
        [exact no_capital_connection | reflexivity].
Defined.

(** A message with both patterns. *)
Lemma out_of_memory_takes_precedence_witness :
  fst (generate_caption Stub.both_patterns (Some Stub.photo)
         (Stub.start Stub.both_patterns))
  = Return Msg.out_of_memory.
Proof.
  apply (out_of_memory_takes_precedence Stub.both_patterns
           Stub.photo (Stub.start Stub.both_patterns)
           Stub.first_request 0 Stub.photo
           (Stub.RuntimeError "Connection lost: CUDA out of memory")
           eq_refl eq_refl eq_refl).
  - apply occurs_of_contains; [exact no_capital_out_of_memory | reflexivity].
  - apply occurs_of_contains; [exact no_capital_connection | reflexivity].
Defined.

(** The caption "  a dog running  " for a greyscale scan, which is
    converted first. *)
Lemma first_candidate_caption_witness :
  fst (generate_caption (Stub.working "  a dog running  ") (Some Stub.scan)
         (Stub.start (Stub.working "  a dog running  ")))
  = Return (Msg.success_marker ++ ascii_text "a dog running").
Proof.
  refine (proj2 (proj2 (proj2 (proj2
            (first_candidate_caption (Stub.working "  a dog running  ")
               Stub.scan (Stub.start (Stub.working "  a dog running  "))
               (Stub.first_request ++ [EvConvert Stub.scan RGB]) 0
               {| mode := RGB; pixels := 8 |}
               {[ generated_text := ascii_text "  a dog running  " ]} []
               (ascii_text "  a dog running  ")
               eq_refl eq_refl _)))) eq_refl).
  apply lookup_singleton_eq.
Defined.

Lemma working_convert_sets_mode (text : string) :
  convert_sets_mode (Stub.working text).
Proof. intros t i m i' H. injection H as <-. reflexivity. Defined.

(** The greyscale scan is converted, and the pipeline is called on the
    RGB image that the conversion returned. *)
Lemma inference_gets_rgb_witness :
  convert_sets_mode (Stub.working "a cat")
  /\ inferences (hist (snd (generate_caption (Stub.working "a cat")
                             (Some Stub.scan)
                             (Stub.start (Stub.working "a cat")))))
     = [ {| mode := RGB; pixels := 8 |} ]
  /\ hist (snd (generate_caption (Stub.working "a cat") (Some Stub.scan)
                  (Stub.start (Stub.working "a cat"))))
     = Stub.first_request
       ++ [EvConvert Stub.scan RGB; EvInfer 0 {| mode := RGB; pixels := 8 |}].
Proof.
  split; [apply working_convert_sets_mode|].
  destruct (inference_gets_rgb (Stub.working "a cat") (Some Stub.scan)
              (Stub.start (Stub.working "a cat"))
              (working_convert_sets_mode "a cat"))
    as [_ Hshape].
  destruct (Hshape Stub.scan
              (snd (load_model (Stub.working "a cat")
                      (Stub.start (Stub.working "a cat"))))
              eq_refl eq_refl)
    as (h & Hh & _ & Hconverted).
  injection Hh as <-.
  assert (Hmode : mode Stub.scan <> RGB) by (vm_compute; discriminate).
  destruct (Hconverted Hmode) as [_ Hhist].
  split; [rewrite Hhist; reflexivity | exact Hhist].
Defined.

(** Three callers one by one; two callers racing; three callers that
    all make the test first; and two of three that do. *)
Lemma callers_one_by_one_or_racing_witness :
  (fst (Threads.run (Stub.working "a cat") (Threads.one_by_one 3)
          (replicate 3 Threads.AtEntry) (Stub.start (Stub.working "a cat")))
   = replicate 3 (Threads.Finished (Return true) (Some 0))
   /\ constructions
        (hist (snd (Threads.run (Stub.working "a cat") (Threads.one_by_one 3)
                      (replicate 3 Threads.AtEntry)
                      (Stub.start (Stub.working "a cat")))))
      = [(-1)%Z])
  /\ (fst (Threads.run (Stub.working "a cat") Threads.race
             [Threads.AtEntry; Threads.AtEntry]
             (Stub.start (Stub.working "a cat")))
      = [Threads.Finished (Return true) (Some 0);
         Threads.Finished (Return true) (Some 1)]
      /\ constructions
           (hist (snd (Threads.run (Stub.working "a cat") Threads.race
                         [Threads.AtEntry; Threads.AtEntry]
                         (Stub.start (Stub.working "a cat")))))
         = [(-1)%Z; (-1)%Z])
  /\ length (constructions
               (hist (snd (Threads.run (Stub.working "a cat")
                             (all_check_first 3 ++ three_overlapping)
                             (replicate 3 Threads.AtEntry)
                             (Stub.start (Stub.working "a cat"))))))
     = 3%nat
  /\ (2 <= length (constructions
                     (hist (snd (Threads.run (Stub.working "a cat")
                                   ([0; 1]%nat
                                    ++ three_overlapping ++ [2]%nat)
                                   (replicate 3 Threads.AtEntry)
                                   (Stub.start (Stub.working "a cat")))))))%nat.
Proof.
  assert (Hok : always_constructs (Stub.working "a cat"))
    by (intros t m d; eexists; reflexivity).
  assert (Hfin3 : Forall (fun p => exists r seen, p = Threads.Finished r seen)
                    (fst (Threads.run (Stub.working "a cat")
                            (all_check_first 3 ++ three_overlapping)
                            (replicate 3 Threads.AtEntry)
                            (Stub.start (Stub.working "a cat")))))
    by (vm_compute; repeat constructor; eauto).
  assert (Hfin2 : Forall (fun p => exists r seen, p = Threads.Finished r seen)
                    (fst (Threads.run (Stub.working "a cat")
                            ([0; 1]%nat ++ three_overlapping ++ [2]%nat)
                            (replicate 3 Threads.AtEntry)
                            (Stub.start (Stub.working "a cat")))))
    by (vm_compute; repeat constructor; eauto).
  split; [|split; [|split]].
  - apply (proj1 (callers_one_by_one_or_racing (Stub.working "a cat"))
             (Stub.start (Stub.working "a cat")) 0 3%nat eq_refl eq_refl).
    lia.
  - apply (proj1 (proj2 (callers_one_by_one_or_racing (Stub.working "a cat")))
             (Stub.start (Stub.working "a cat")) 0 1 eq_refl eq_refl eq_refl).
  - apply (proj2 (proj2 (proj2
                    (callers_one_by_one_or_racing (Stub.working "a cat"))))
             (Stub.start (Stub.working "a cat")) 3%nat three_overlapping
             Hok eq_refl Hfin3).
  - apply (proj1 (proj2 (proj2
                    (callers_one_by_one_or_racing (Stub.working "a cat"))))
             (Stub.start (Stub.working "a cat")) 3%nat [0; 1]%nat
             (three_overlapping ++ [2]%nat) Hok eq_refl Hfin2).
Defined.

(** ** Further properties of the caption service *)

Section Requests.

Variable env : collaborators.

(** What [load_model] lets through is no [Exception]. *)
Lemma load_model_raises (s : state) (e : PyExn) :
  fst (load_model env s) = Raise e -> exn_is_Exception e = false.
Proof.
  unfold_methods. simpl.
  destruct (caption_pipeline (self s)); simpl; [discriminate|].
  destruct (pipeline env _ _ _) as [h|e1]; simpl; [discriminate|].
  destruct (exn_is_Exception e1) eqn:He1; simpl; [|congruence].
  destruct (device (self s) =? 0)%Z; simpl; [|discriminate].
  destruct (pipeline env _ _ (-1)%Z) as [h|e2]; simpl; [discriminate|].
  destruct (exn_is_Exception e2) eqn:He2; simpl; [discriminate | congruence].
Qed.

(** The events of the [try] block: at most one conversion, to RGB and of
    a non-RGB image only, then at most one call of the pipeline. *)
Lemma generate_caption_tail (image : Image) (s s1 : state) :
  load_model env s = (Return true, s1) ->
  exists tail,
    hist (snd (generate_caption env (Some image) s)) = hist s1 ++ tail
    /\ ((exists h, tail = [EvInfer h image] /\ mode image = RGB)
        \/ (tail = [EvConvert image RGB] /\ mode image <> RGB)
        \/ (exists h i, tail = [EvConvert image RGB; EvInfer h i]
                        /\ mode image <> RGB)).
Proof.
  intros Hl. rewrite generate_caption_some, Hl.
  destruct (load_model_true _ _ _ Hl) as [h0 Hc].
  unfold try_except. rewrite (caption_try_eq _ _ _ _ Hc). unfold infer_on.
  destruct (bool_decide (mode image = RGB)) eqn:Hmode.
  - apply bool_decide_eq_true in Hmode.
    exists [EvInfer h0 image]. split; [|left; eauto].
    split_answers; rewrite ?caption_except_eq; reflexivity.
  - apply bool_decide_eq_false in Hmode.
    destruct (convert env (hist s1) image RGB) as [i|e] eqn:Hconv.
    + exists [EvConvert image RGB; EvInfer h0 i].
      split; [|right; right; eauto].
      split_answers; rewrite ?caption_except_eq; finish_trace.
    + exists [EvConvert image RGB]. split; [|right; left; auto].
      split_answers; rewrite ?caption_except_eq; reflexivity.
Qed.

(** The [try] block in full: which pipeline is called, on which image,
    and what [convert] answered. *)
Lemma generate_caption_tail_exact (image : Image) (s s1 : state) :
  load_model env s = (Return true, s1) ->
  exists h,
    caption_pipeline (self s1) = Some h
    /\ ((mode image = RGB
         /\ hist (snd (generate_caption env (Some image) s))
            = hist s1 ++ [EvInfer h image])
        \/ (mode image <> RGB
            /\ exists e,
                 convert env (hist s1) image RGB = Raise e
                 /\ hist (snd (generate_caption env (Some image) s))
                    = hist s1 ++ [EvConvert image RGB])
        \/ (mode image <> RGB
            /\ exists i,
                 convert env (hist s1) image RGB = Return i
                 /\ hist (snd (generate_caption env (Some image) s))
                    = hist s1 ++ [EvConvert image RGB; EvInfer h i])).
Proof.
  intros Hl. destruct (load_model_true _ _ _ Hl) as [h Hc].
  exists h. split; [exact Hc|].
  destruct (inference_reached env image s s1 h Hl Hc) as [Hrgb Hconv].
  destruct (decide (mode image = RGB)) as [Hmode|Hmode]; [left; auto|right].
  destruct (convert env (hist s1) image RGB) as [i|e] eqn:Hcv.
  - right. split; [exact Hmode|]. exists i. split; [reflexivity|].
    rewrite (Hconv i Hmode eq_refl), <- app_assoc. reflexivity.
  - left. split; [exact Hmode|]. exists e. split; [reflexivity|].
    rewrite generate_caption_some, Hl.
    unfold try_except. rewrite (caption_try_eq _ _ _ _ Hc).
    rewrite (bool_decide_eq_false_2 _ Hmode), Hcv.
    destruct (exn_is_Exception e); rewrite ?caption_except_eq; reflexivity.
Qed.

(** X1: a request with an image enters [load_model] first, which
    constructs at most twice.  Unless [load_model] returns [True]
    nothing follows.  When it does, an RGB image goes straight to the
    cached pipeline; an image that is not RGB is converted to RGB
    first, once, and the cached pipeline is called on what [convert]
    returned, or not at all when [convert] raised.  The pipeline is
    called at most once and nothing is tried a second time. *)
Theorem request_protocol (image : Image) (s : state) :
  exists loads tail,
    hist (snd (generate_caption env (Some image) s))
    = hist s ++ EvLoadModel :: loads ++ tail
    /\ hist (snd (load_model env s)) = hist s ++ EvLoadModel :: loads
    /\ Forall (fun ev => exists m d, ev = EvPipeline m d) loads
    /\ (length loads <= 2)%nat
    /\ ((tail = [] /\ fst (load_model env s) <> Return true)
        \/ (exists h,
              tail = [EvInfer h image]
              /\ mode image = RGB
              /\ fst (load_model env s) = Return true
              /\ caption_pipeline
                   (self (snd (generate_caption env (Some image) s)))
                 = Some h)
        \/ (tail = [EvConvert image RGB]
            /\ mode image <> RGB
            /\ fst (load_model env s) = Return true
            /\ exists e,
                 convert env (hist s ++ EvLoadModel :: loads) image RGB
                 = Raise e)
        \/ (exists h i,
              tail = [EvConvert image RGB; EvInfer h i]
              /\ mode image <> RGB
              /\ fst (load_model env s) = Return true
              /\ convert env (hist s ++ EvLoadModel :: loads) image RGB
                 = Return i
              /\ caption_pipeline
                   (self (snd (generate_caption env (Some image) s)))
                 = Some h)).
Proof.
  destruct (load_model_hist env s) as (loads & Hhist & Hloads & Hlen).
  pose proof (generate_caption_self env image s) as Hself.
  destruct (load_model env s) as [[[|]|e0] s1] eqn:Hl; cbn [fst snd] in *.
  - destruct (generate_caption_tail_exact image s s1 Hl)
      as (h & Hc & Hcases).
    destruct Hcases as [(Hmode & Htail)
                       |[(Hmode & e & Hcv & Htail)
                        |(Hmode & i & Hcv & Htail)]].
    + exists loads, [EvInfer h image].
      split; [rewrite Htail, Hhist, <- app_assoc; reflexivity|].
      split; [exact Hhist|]. split; [exact Hloads|]. split; [exact Hlen|].
      right. left. exists h. rewrite Hself. auto.
    + exists loads, [EvConvert image RGB].
      split; [rewrite Htail, Hhist, <- app_assoc; reflexivity|].
      split; [exact Hhist|]. split; [exact Hloads|]. split; [exact Hlen|].
      right. right. left. rewrite <- Hhist. eauto.
    + exists loads, [EvConvert image RGB; EvInfer h i].
      split; [rewrite Htail, Hhist, <- app_assoc; reflexivity|].
      split; [exact Hhist|]. split; [exact Hloads|]. split; [exact Hlen|].
      right. right. right. exists h, i. rewrite Hself, <- Hhist. auto.
  - exists loads, []. rewrite generate_caption_some, Hl. cbn [snd].
    rewrite Hhist, app_nil_r. repeat split; auto.
  - exists loads, []. rewrite generate_caption_some, Hl. cbn [snd].
    rewrite Hhist, app_nil_r. repeat split; auto.
Qed.

(** X2: whatever the collaborators do, an exception that leaves
    [generate_caption] is not an [Exception]: every [Exception] raised
    during construction, conversion or inference, and the [KeyError] of
    a candidate without text, ends as a returned message. *)
Theorem generate_caption_raises_no_Exception (image : option Image)
    (s : state) (e : PyExn) :
  fst (generate_caption env image s) = Raise e -> exn_is_Exception e = false.
Proof.
  destruct image as [image|]; [|discriminate].
  rewrite generate_caption_some.
  pose proof (load_model_raises s) as Hraise.
  destruct (load_model env s) as [[[|]|e0] s1] eqn:Hl; cbn [fst] in *.
  - destruct (load_model_true _ _ _ Hl) as [h0 Hc].
    unfold try_except. rewrite (caption_try_eq _ _ _ _ Hc). unfold infer_on.
    split_answers; rewrite ?caption_except_eq; cbn [fst];
      try discriminate; congruence.
  - discriminate.
  - intros [= <-]. apply Hraise. reflexivity.
Qed.

(** The [try] block constructs nothing. *)
Lemma generate_caption_constructions (image : Image) (s : state) :
  constructions (hist (snd (generate_caption env (Some image) s)))
  = constructions (hist (snd (load_model env s))).
Proof.
  destruct (load_model env s) as [[[|]|e0] s1] eqn:Hl; cbn [snd].
  - destruct (generate_caption_tail image s s1 Hl) as (tail & -> & Hcases).
    rewrite constructions_app.
    destruct Hcases as [(h & -> & _)|[[-> _]|(h & i & -> & _)]];
      apply app_nil_r.
  - rewrite generate_caption_some, Hl. reflexivity.
  - rewrite generate_caption_some, Hl. reflexivity.
Qed.

(** X3: once a pipeline is cached it stays: through every sequence of
    requests, with or without image, whatever they end in, the instance
    keeps the same pipeline, device and model name, and nothing is
    constructed any more. *)
Theorem cached_pipeline_persists (requests : list (option Image))
    (s : state) (h : Handle) :
  caption_pipeline (self s) = Some h ->
  self (serve env requests s) = self s
  /\ constructions (hist (serve env requests s)) = constructions (hist s).
Proof.
  revert s. induction requests as [|image rest IH]; intros s Hc; [auto|].
  cbn [serve].
  assert (Hstep : self (snd (generate_caption env image s)) = self s
                  /\ constructions (hist (snd (generate_caption env image s)))
                     = constructions (hist s)).
  { destruct image as [image|]; [|auto].
    rewrite generate_caption_self, generate_caption_constructions.
    rewrite (load_model_cached env s h Hc). cbn [snd record self hist].
    rewrite constructions_app. split; [reflexivity | apply app_nil_r]. }
  destruct Hstep as [Hself Hcons].
  destruct (IH (snd (generate_caption env image s))) as [Hself' Hcons'].
  { rewrite Hself. exact Hc. }
  split; congruence.
Qed.

(** When [load_model] returns [False] it has changed nothing but the
    trace: one failed construction on a device other than the GPU, or a
    failed one on the GPU and a failed one on the CPU. *)
Lemma load_model_false (s : state) :
  fst (load_model env s) = Return false ->
  caption_pipeline (self s) = None
  /\ self (snd (load_model env s)) = self s
  /\ ((device (self s) <> 0%Z
       /\ hist (snd (load_model env s))
          = hist s ++ [EvLoadModel;
                       EvPipeline (model_name (self s)) (device (self s))])
      \/ (device (self s) = 0%Z
          /\ hist (snd (load_model env s))
             = hist s ++ [EvLoadModel;
                          EvPipeline (model_name (self s)) 0%Z;
                          EvPipeline (model_name (self s)) (-1)%Z])).
Proof.
  unfold_methods. simpl.
  destruct (caption_pipeline (self s)); simpl; [discriminate|].
  destruct (pipeline env _ _ _) as [h|e1]; simpl; [discriminate|].
  destruct (exn_is_Exception e1); simpl; [|discriminate].
  destruct (device (self s) =? 0)%Z eqn:Hd; simpl.
  - apply Z.eqb_eq in Hd.
    destruct (pipeline env _ _ (-1)%Z) as [h|e2]; simpl; [discriminate|].
    destruct (exn_is_Exception e2); simpl; [|discriminate].
    intros _. split; [reflexivity|]. split; [reflexivity|]. right.
    split; [exact Hd|]. rewrite Hd. finish_trace.
  - apply Z.eqb_neq in Hd. intros _.
    split; [reflexivity|]. split; [reflexivity|]. left.
    split; [exact Hd | finish_trace].
Qed.

(** X4: a failed load is not remembered.  When [load_model] returns
    [False] the request returns the load-failure message without
    converting the image or calling a pipeline, the instance is as it
    was with no pipeline cached, and so the next request constructs
    again, starting on the same device. *)
Theorem failed_load_is_not_cached (image : Image) (s : state) :
  fst (load_model env s) = Return false ->
  fst (generate_caption env (Some image) s) = Return Msg.load_failed
  /\ self (snd (generate_caption env (Some image) s)) = self s
  /\ caption_pipeline (self s) = None
  /\ conversions (hist (snd (generate_caption env (Some image) s)))
     = conversions (hist s)
  /\ inferences (hist (snd (generate_caption env (Some image) s)))
     = inferences (hist s)
  /\ (constructions (hist (snd (generate_caption env (Some image) s)))
      = constructions (hist s) ++ [device (self s)]
      \/ constructions (hist (snd (generate_caption env (Some image) s)))
         = constructions (hist s) ++ [0%Z; (-1)%Z]).
Proof.
  intros Hfalse.
  destruct (load_model_false s Hfalse) as (Hc & Hself & Hhist).
  rewrite generate_caption_some.
  destruct (load_model env s) as [r s1]. cbn [fst snd] in *. subst r.
  cbn [fst snd]. split; [reflexivity|]. split; [exact Hself|].
  split; [exact Hc|].
  unfold conversions, inferences, constructions.
  destruct Hhist as [[_ ->]|[_ ->]]; rewrite !omap_app; cbn;
    rewrite ?app_nil_r; auto.
Qed.

(** X5: an [Exception] raised by the conversion of a non-RGB image is
    handled like one raised by the pipeline: the pipeline is not called,
    and the message is chosen from the text of the exception. *)
Theorem conversion_failure_classified (image : Image) (s s1 : state)
    (e : PyExn) :
  load_model env s = (Return true, s1) ->
  mode image <> RGB ->
  convert env (hist s1) image RGB = Raise e ->
  exn_is_Exception e = true ->
  inferences (hist (snd (generate_caption env (Some image) s)))
  = inferences (hist s)
  /\ (ci_occurs pat_out_of_memory (exn_str e) ->
      fst (generate_caption env (Some image) s) = Return Msg.out_of_memory)
  /\ (~ ci_occurs pat_out_of_memory (exn_str e) ->
      ci_occurs pat_connection (exn_str e) ->
      fst (generate_caption env (Some image) s) = Return Msg.network)
  /\ (~ ci_occurs pat_out_of_memory (exn_str e) ->
      ~ ci_occurs pat_connection (exn_str e) ->
      fst (generate_caption env (Some image) s)
      = Return (Msg.processing_prefix ++ exn_str e)).
Proof.
  intros Hl Hmode Hconv He.
  pose proof (load_model_inferences env s) as Hinf. rewrite Hl in Hinf.
  cbn [snd] in Hinf.
  destruct (load_model_true _ _ _ Hl) as [h0 Hc].
  rewrite generate_caption_some, Hl.
  unfold try_except. rewrite (caption_try_eq _ _ _ _ Hc).
  rewrite (bool_decide_eq_false_2 _ Hmode), Hconv, He.
  split.
  - rewrite caption_except_eq. cbn [snd].
    rewrite inferences_record_convert. exact Hinf.
  - apply caption_except_classes.
Qed.

(** X6: a first candidate without the key [generated_text] gives the
    processing-error message with the text of the [KeyError], the key
    between quotes; the candidates after the first are not looked at. *)
Theorem missing_text_reported (image : Image) (s : state) (t : trace)
    (h : Handle) (i : Image) (first : Candidate) (rest : list Candidate) :
  hist (snd (generate_caption env (Some image) s)) = t ++ [EvInfer h i] ->
  call_pipeline env t h i = Return (first :: rest) ->
  first !! generated_text = None ->
  fst (generate_caption env (Some image) s)
  = Return (Msg.processing_prefix ++ ascii_text "'generated_text'").
Proof.
  intros Hrun Hcall Hkey.
  rewrite (inference_run _ _ _ _ _ _ Hrun), Hcall, Hkey, caption_except_eq.
  vm_compute. reflexivity.
Qed.

(** [strip] returns the empty string exactly for the strings made of
    whitespace. *)
Lemma strip_nil_iff (s : str) : strip s = [] <-> forallb is_space s = true.
Proof.
  split.
  - intros Hnil. destruct (strip_split s) as (l & r & Hs & Hl & Hr).
    rewrite Hnil in Hs. rewrite Hs, forallb_app, Hl. exact Hr.
  - intros Hall. unfold strip.
    assert (Hl : lstrip s = []).
    { induction s as [|c s IH]; [reflexivity|]. cbn [forallb] in Hall.
      apply andb_true_iff in Hall as [Hc Hall]. cbn [lstrip].
      rewrite Hc. exact (IH Hall). }
    rewrite Hl. reflexivity.
Qed.

(** X7: a first candidate whose text is empty or all whitespace is a
    success with nothing after the marker, not the "could not generate
    a caption" failure; and the bare marker is returned for such texts
    only. *)
Theorem blank_caption_is_success (image : Image) (s : state) (t : trace)
    (h : Handle) (i : Image) (first : Candidate) (rest : list Candidate)
    (text : str) :
  hist (snd (generate_caption env (Some image) s)) = t ++ [EvInfer h i] ->
  call_pipeline env t h i = Return (first :: rest) ->
  first !! generated_text = Some text ->
  (fst (generate_caption env (Some image) s) = Return Msg.success_marker
   <-> forallb is_space text = true)
  /\ Msg.success_marker <> Msg.empty_result.
Proof.
  intros Hrun Hcall Hkey.
  rewrite (inference_run _ _ _ _ _ _ Hrun), Hcall, Hkey.
  split; [|discriminate].
  rewrite <- strip_nil_iff. split.
  - intros H. injection H as H. exact H.
  - intros ->. rewrite app_nil_r. reflexivity.
Qed.

(** Whatever [generate_caption] returns is one of its messages. *)
Lemma returned_is_message (image : option Image) (s : state) (msg : str) :
  fst (generate_caption env image s) = Return msg -> is_message msg.
Proof.
  unfold is_message.
  destruct image as [image|]; [|intros [= <-]; pick_message].
  rewrite generate_caption_some.
  destruct (load_model env s) as [[[|]|e0] s1] eqn:Hl; cbn [fst];
    [|intros [= <-]; pick_message|discriminate].
  destruct (load_model_true _ _ _ Hl) as [h0 Hc].
  unfold try_except. rewrite (caption_try_eq _ _ _ _ Hc). unfold infer_on.
  split_answers; rewrite ?caption_except_eq; cbn [fst];
    repeat match goal with
           | |- context [contains ?p ?x] => destruct (contains p x)
           end;
    try discriminate; intros [= <-]; pick_message.
Qed.

(** X8: the first code point of a returned message tells whether the
    request succeeded: the direct-hit emoji starts a caption, which is
    the marker followed by a trimmed text, and the cross mark starts
    every other message, none of which begins with the marker. *)
Theorem result_tells_success (image : option Image) (s : state) (msg : str) :
  fst (generate_caption env image s) = Return msg ->
  (head msg = Some 0x1F3AF
   /\ exists caption, msg = Msg.success_marker ++ strip caption)
  \/ (head msg = Some 0x274C
      /\ forall caption, msg <> Msg.success_marker ++ caption).
Proof.
  intros Hret. apply returned_is_message in Hret.
  destruct Hret as [->|[->|[->|[->|[->|[(em & ->)|(c & ->)]]]]]];
    [right|right|right|right|right|right|left; split; [reflexivity | eauto]];
    (split; [reflexivity|]);
    intros caption H; apply (f_equal head) in H; vm_compute in H;
    discriminate H.
Qed.

(** The devices on which one call of [load_model] constructs: the
    device of the instance, and after it the CPU. *)
Lemma load_model_devices (s : state) :
  exists new,
    constructions (hist (snd (load_model env s)))
    = constructions (hist s) ++ new
    /\ Forall (fun d => d = device (self s) \/ d = (-1)%Z) new.
Proof.
  unfold_methods. simpl.
  destruct (caption_pipeline (self s)); simpl.
  { exists []. rewrite constructions_app. split; [reflexivity | constructor]. }
  assert (Hone : exists new,
            constructions ((hist s ++ [EvLoadModel])
                           ++ [EvPipeline (model_name (self s)) (device (self s))])
            = constructions (hist s) ++ new
            /\ Forall (fun d => d = device (self s) \/ d = (-1)%Z) new).
  { exists [device (self s)]. rewrite !constructions_app.
    split; [rewrite <- app_assoc; reflexivity | repeat constructor]. }
  destruct (pipeline env _ _ _) as [h|e1]; simpl; [exact Hone|].
  destruct (exn_is_Exception e1); simpl; [|exact Hone].
  destruct (device (self s) =? 0)%Z; simpl; [|exact Hone].
  assert (Htwo : exists new,
            constructions (((hist s ++ [EvLoadModel])
                            ++ [EvPipeline (model_name (self s)) (device (self s))])
                           ++ [EvPipeline (model_name (self s)) (-1)%Z])
            = constructions (hist s) ++ new
            /\ Forall (fun d => d = device (self s) \/ d = (-1)%Z) new).
  { exists [device (self s); (-1)%Z]. rewrite !constructions_app.
    split; [rewrite <- !app_assoc; reflexivity|].
    constructor; [left; reflexivity|].
    constructor; [right; reflexivity | constructor]. }
  destruct (pipeline env _ _ (-1)%Z) as [h|e2]; simpl; [exact Htwo|].
  destruct (exn_is_Exception e2); simpl; exact Htwo.
Qed.

Lemma serve_devices (requests : list (option Image)) (s : state) (d0 : Z) :
  device (self s) = d0 \/ device (self s) = (-1)%Z ->
  (device (self (serve env requests s)) = d0
   \/ device (self (serve env requests s)) = (-1)%Z)
  /\ exists new,
       constructions (hist (serve env requests s))
       = constructions (hist s) ++ new
       /\ Forall (fun d => d = d0 \/ d = (-1)%Z) new.
Proof.
  revert s. induction requests as [|image rest IH]; intros s Hd.
  { split; [exact Hd|]. exists []. rewrite app_nil_r.
    split; [reflexivity | constructor]. }
  cbn [serve].
  assert (Hstep : (device (self (snd (generate_caption env image s))) = d0
                   \/ device (self (snd (generate_caption env image s)))
                      = (-1)%Z)
                  /\ exists new,
                       constructions (hist (snd (generate_caption env image s)))
                       = constructions (hist s) ++ new
                       /\ Forall (fun d => d = d0 \/ d = (-1)%Z) new).
  { destruct image as [image|].
    - rewrite generate_caption_self, generate_caption_constructions. split.
      + destruct (load_model_device env s) as [H|H]; rewrite H; auto.
      + destruct (load_model_devices s) as (new & Hnew & Hall).
        exists new. split; [exact Hnew|].
        eapply Forall_impl; [exact Hall|].
        intros d [->| ->]; auto.
    - split; [exact Hd|]. exists []. rewrite app_nil_r.
      split; [reflexivity | constructor]. }
  destruct Hstep as (Hd1 & new1 & Hnew1 & Hall1).
  destruct (IH _ Hd1) as (Hd2 & new2 & Hnew2 & Hall2).
  split; [exact Hd2|]. exists (new1 ++ new2).
  rewrite Hnew2, Hnew1, <- app_assoc. split; [reflexivity|].
  apply Forall_app. auto.
Qed.

(** X9: in a process started by [ImageCaptioningApp()], through every
    sequence of requests, the device is 0 or -1 and every construction
    is on device 0 or -1; on a machine without CUDA the device is -1
    throughout and nothing is ever constructed on the GPU. *)
Theorem constructions_follow_device (requests : list (option Image)) :
  (device (self (serve env requests {| self := init env; hist := [] |})) = 0%Z
   \/ device (self (serve env requests {| self := init env; hist := [] |}))
      = (-1)%Z)
  /\ Forall (fun d => d = 0%Z \/ d = (-1)%Z)
       (constructions
          (hist (serve env requests {| self := init env; hist := [] |})))
  /\ (cuda_is_available env = false ->
      device (self (serve env requests {| self := init env; hist := [] |}))
      = (-1)%Z
      /\ Forall (fun d => d = (-1)%Z)
           (constructions
              (hist (serve env requests {| self := init env; hist := [] |})))).
Proof.
  destruct (serve_devices requests {| self := init env; hist := [] |}
              (_get_device env) (or_introl eq_refl))
    as (Hd & new & Hnew & Hall).
  assert (Hcons : constructions
                    (hist (serve env requests {| self := init env; hist := [] |}))
                  = new) by exact Hnew.
  rewrite Hcons. clear Hnew Hcons. unfold _get_device in *.
  destruct (cuda_is_available env).
  - split; [exact Hd|]. split; [exact Hall | discriminate].
  - split; [destruct Hd; auto|]. split.
    + eapply Forall_impl; [exact Hall|]. intros d [->| ->]; auto.
    + intros _. split; [destruct Hd; assumption|].
      eapply Forall_impl; [exact Hall|]. intros d [->| ->]; reflexivity.
Qed.

End Requests.

(** ** Callers of [load_model] under every schedule *)

Section Schedules.

Import Threads.

Variable env : collaborators.

Lemma constructions_record (ev : event) (s : state) :
  constructions (hist (record ev s))
  = constructions (hist s)
    ++ match ev with EvPipeline _ d => [d] | _ => [] end.
Proof.
  unfold record. cbn [hist]. rewrite constructions_app.
  destruct ev; reflexivity.
Qed.

(** One statement with a cached pipeline. *)
Lemma step_cached (p : pc) (s : state) (h : Handle) :
  caption_pipeline (self s) = Some h ->
  p = AtEntry \/ p = AtReturn true \/ p = Finished (Return true) (Some h) ->
  (fst (step env p s) = AtEntry \/ fst (step env p s) = AtReturn true
   \/ fst (step env p s) = Finished (Return true) (Some h))
  /\ self (snd (step env p s)) = self s
  /\ constructions (hist (snd (step env p s))) = constructions (hist s).
Proof.
  intros Hc [->|[->| ->]]; cbn [step]; rewrite ?Hc; cbn [fst snd].
  - rewrite constructions_record, app_nil_r. auto.
  - auto.
  - auto.
Qed.

Lemma run_cached (schedule : list nat) (callers : list pc) (s : state)
    (h : Handle) :
  caption_pipeline (self s) = Some h ->
  Forall (fun p => p = AtEntry \/ p = AtReturn true
                   \/ p = Finished (Return true) (Some h)) callers ->
  Forall (fun p => p = AtEntry \/ p = AtReturn true
                   \/ p = Finished (Return true) (Some h))
         (fst (run env schedule callers s))
  /\ self (snd (run env schedule callers s)) = self s
  /\ constructions (hist (snd (run env schedule callers s)))
     = constructions (hist s).
Proof.
  revert callers s. induction schedule as [|i rest IH]; intros callers s Hc Hall.
  { cbn [run fst snd]. auto. }
  cbn [run]. destruct (callers !! i) as [p|] eqn:Hi; [|apply IH; assumption].
  assert (Hp : p = AtEntry \/ p = AtReturn true
               \/ p = Finished (Return true) (Some h)).
  { rewrite Forall_forall in Hall. eapply Hall, list_elem_of_lookup_2, Hi. }
  destruct (step_cached p s h Hc Hp) as (Hp' & Hself & Hcons).
  destruct (step env p s) as [p' s']. cbn [fst snd] in *.
  destruct (IH (<[i:=p']> callers) s') as (Hall' & Hself' & Hcons').
  - rewrite Hself. exact Hc.
  - apply Forall_insert; assumption.
  - split; [exact Hall'|]. split; congruence.
Qed.

(** X10: when a pipeline is cached, callers of [load_model] cannot
    race: under every schedule of any number of callers nothing is
    constructed, the instance is not written, and every caller that
    has finished has returned [True] with that pipeline. *)
Theorem cached_callers_never_construct (schedule : list nat) (n : nat)
    (s : state) (h : Handle) :
  caption_pipeline (self s) = Some h ->
  self (snd (run env schedule (replicate n AtEntry) s)) = self s
  /\ constructions (hist (snd (run env schedule (replicate n AtEntry) s)))
     = constructions (hist s)
  /\ forall i r seen,
       fst (run env schedule (replicate n AtEntry) s) !! i
       = Some (Finished r seen) ->
       r = Return true /\ seen = Some h.
Proof.
  intros Hc.
  destruct (run_cached schedule (replicate n AtEntry) s h Hc)
    as (Hall & Hself & Hcons).
  { apply Forall_replicate. auto. }
  split; [exact Hself|]. split; [exact Hcons|].
  intros i r seen Hi. rewrite Forall_forall in Hall.
  destruct (Hall _ (list_elem_of_lookup_2 _ _ _ Hi)) as [H|[H|H]];
    try discriminate. injection H as -> ->. auto.
Qed.

(** Name the counts of attempts before the arithmetic. *)
Local Ltac hide_attempts :=
  repeat match goal with
         | H : context [attempts_left ?p] |- _ =>
             let x := fresh "a" in set (x := attempts_left p) in *; clearbody x
         | H : context [sum_list_with attempts_left ?l] |- _ =>
             let x := fresh "t" in
             set (x := sum_list_with attempts_left l) in *; clearbody x
         | |- context [sum_list_with attempts_left ?l] =>
             let x := fresh "t" in
             set (x := sum_list_with attempts_left l) in *; clearbody x
         end.

(** One statement constructs at most what the caller had left. *)
Lemma step_attempts (p : pc) (s : state) :
  (length (constructions (hist (snd (step env p s))))
   + attempts_left (fst (step env p s))
   <= length (constructions (hist s)) + attempts_left p)%nat.
Proof.
  destruct p; cbn [step attempts_left];
    repeat match goal with
           | |- context [match ?x with _ => _ end] => destruct x
           end;
    cbn [fst snd attempts_left store_pipeline set_caption_pipeline
         set_device hist];
    rewrite ?constructions_record, ?length_app; cbn [length]; lia.
Qed.

Lemma attempts_insert (callers : list pc) (i : nat) (p p' : pc) :
  callers !! i = Some p ->
  (sum_list_with attempts_left (<[i:=p']> callers) + attempts_left p
   = sum_list_with attempts_left callers + attempts_left p')%nat.
Proof.
  revert i. induction callers as [|q callers IH]; intros i Hi; [discriminate|].
  destruct i as [|i]; cbn in *.
  - injection Hi as ->. rewrite <- !Nat.add_assoc.
    rewrite (Nat.add_comm (attempts_left p')), (Nat.add_comm (attempts_left p)).
    rewrite <- !Nat.add_assoc. f_equal. apply Nat.add_comm.
  - rewrite <- !Nat.add_assoc. f_equal. exact (IH i Hi).
Qed.

Lemma run_attempts (schedule : list nat) (callers : list pc) (s : state) :
  (length (constructions (hist (snd (run env schedule callers s))))
   + sum_list_with attempts_left (fst (run env schedule callers s))
   <= length (constructions (hist s))
      + sum_list_with attempts_left callers)%nat.
Proof.
  revert callers s. induction schedule as [|i rest IH]; intros callers s.
  { cbn [run fst snd]. lia. }
  cbn [run]. destruct (callers !! i) as [p|] eqn:Hi; [|apply IH].
  pose proof (step_attempts p s) as Hstep.
  destruct (step env p s) as [p' s']. cbn [fst snd] in Hstep.
  pose proof (attempts_insert callers i p p' Hi) as Hins.
  specialize (IH (<[i:=p']> callers) s'). hide_attempts. lia.
Qed.

(** X11: under every schedule, [n] callers of [load_model] construct
    at most [2 * n] pipelines between them: each caller constructs at
    most twice, however the calls overlap and whatever fails. *)
Theorem constructions_bounded (schedule : list nat) (n : nat) (s : state) :
  (length (constructions
             (hist (snd (run env schedule (replicate n AtEntry) s))))
   <= length (constructions (hist s)) + 2 * n)%nat.
Proof.
  assert (Hsum : sum_list_with attempts_left (replicate n AtEntry)
                 = (2 * n)%nat).
  { induction n as [|n IH]; [reflexivity|].
    change (sum_list_with attempts_left (replicate (S n) AtEntry))
      with (2 + sum_list_with attempts_left (replicate n AtEntry))%nat.
    rewrite IH. lia. }
  pose proof (run_attempts schedule (replicate n AtEntry) s) as Hrun.
  rewrite Hsum in Hrun. hide_attempts. lia.
Qed.
End Schedules.

(** ** The entry point *)

Section EntryPoint.

Import Entry.

Variable env : collaborators.

(** [sys.version_info < (3, 7)] in terms of the two numbers. *)
Lemma version_too_old (v : version) :
  tuple_lt (as_tuple v) [3; 7]%Z = true <-> below_3_7 v.
Proof.
  unfold as_tuple, below_3_7. cbn [tuple_lt].
  destruct (major v =? 3)%Z eqn:Hmaj.
  - apply Z.eqb_eq in Hmaj.
    destruct (minor v =? 7)%Z eqn:Hmin.
    + apply Z.eqb_eq in Hmin. split; [discriminate | lia].
    + apply Z.eqb_neq in Hmin. rewrite Z.ltb_lt. lia.
  - apply Z.eqb_neq in Hmaj. rewrite Z.ltb_lt. lia.
Qed.

(** Case analysis on every call that [main] makes. *)
Local Ltac open_main :=
  unfold main, unguarded, print, launch; cbv beta iota zeta.

Local Ltac walk hst :=
  repeat (match goal with
          | |- context [console hst ?seen ?line] =>
              destruct (console hst seen line) eqn:?
          | |- context [tuple_lt ?a ?b] => destruct (tuple_lt a b) eqn:?
          | |- context [new_app hst] => destruct (new_app hst) eqn:?
          | |- context [gr_Interface hst ?a] =>
              destruct (gr_Interface hst a) eqn:?
          | |- context [interface_launch hst ?a ?b ?c] =>
              destruct (interface_launch hst a b c) eqn:?
          | |- context [is_KeyboardInterrupt ?r] =>
              is_var r; destruct (is_KeyboardInterrupt r) eqn:?
          | |- context [exn_is_Exception (exn ?r)] =>
              is_var r; destruct (exn_is_Exception (exn r)) eqn:?
          end; cbv beta iota zeta).

Local Ltac walk_main hst := open_main; walk hst.

(** The console shows every line: no call of it raised. *)
Local Ltac no_console Hcon :=
  try match goal with
      | H : console _ _ _ = Some _ |- _ => rewrite Hcon in H; discriminate H
      end.

(** X12: [main] refuses exactly the versions below 3.7, whatever their
    micro number: nothing is launched and [main] does not return; when
    the terminal shows its lines it prints the requirement and ends the
    process with status 1.  On 3.7 and later, 3.7.0 included, when the
    lines are shown and the application and its interface are
    constructed, the server is launched exactly once, shared, on
    0.0.0.0 and port 7860.  In no case is a server launched twice. *)
Theorem main_version_gate (hst : host) :
  (below_3_7 (version_info hst) ->
   launches (snd (main env hst)) = [] /\ fst (main env hst) <> Returned)
  /\ (below_3_7 (version_info hst) -> console_works hst ->
      main env hst
      = (Exited 1, [Printed banner; Printed rule; Printed starting;
                    Printed too_old]))
  /\ (~ below_3_7 (version_info hst) -> console_works hst ->
      new_app hst = None ->
      gr_Interface hst (init env) = None ->
      launches (snd (main env hst)) = [(true, ascii_text "0.0.0.0", 7860%Z)])
  /\ (length (launches (snd (main env hst))) <= 1)%nat.
Proof.
  pose proof (version_too_old (version_info hst)) as Hold.
  split; [|split; [|split]].
  - intros Hv. apply Hold in Hv. walk_main hst;
      try congruence; split; (reflexivity || discriminate).
  - intros Hv Hcon. apply Hold in Hv. walk_main hst; no_console Hcon;
      try congruence; reflexivity.
  - intros Hv Hcon Happ Hgr.
    assert (Hnew : tuple_lt (as_tuple (version_info hst)) [3; 7]%Z = false).
    { destruct (tuple_lt _ _) eqn:Hlt; [|reflexivity].
      exfalso. apply Hv, Hold. reflexivity. }
    walk_main hst; no_console Hcon; try congruence; reflexivity.
  - walk_main hst; simpl; lia.
Qed.

(** X13: how [main] ends.  An exception raised by the first [print]
    leaves [main] before anything is shown.  When the terminal shows
    its lines: an exception of [ImageCaptioningApp()], which is called
    before the [try], leaves [main] as it is, whatever its class, and
    nothing is launched; once the application is constructed, an
    exception that leaves [main] is neither a [KeyboardInterrupt] nor an
    [Exception]; [main] returns only on a supported version; a
    [KeyboardInterrupt] raised while the interface is constructed or
    served ends [main] with a return, the farewell line being the last
    thing printed; and an [Exception] raised there ends the process
    with status 1 after a line that carries its text. *)
Theorem main_endings (hst : host) :
  (forall r, console hst [] banner = Some r ->
             main env hst = (Propagated r, []))
  /\ (console_works hst ->
      (forall r, ~ below_3_7 (version_info hst) -> new_app hst = Some r ->
                 main env hst
                 = (Propagated r,
                    [Printed banner; Printed rule; Printed starting]))
      /\ (new_app hst = None ->
          forall r, fst (main env hst) = Propagated r ->
                    is_KeyboardInterrupt r = false
                    /\ exn_is_Exception (exn r) = false)
      /\ (fst (main env hst) = Returned -> ~ below_3_7 (version_info hst))
      /\ (forall r,
            ~ below_3_7 (version_info hst) ->
            new_app hst = None ->
            raised_in_launch env hst r ->
            (is_KeyboardInterrupt r = true ->
             fst (main env hst) = Returned
             /\ last (snd (main env hst)) = Some (Printed stopped))
            /\ (is_KeyboardInterrupt r = false ->
                exn_is_Exception (exn r) = true ->
                fst (main env hst) = Exited 1
                /\ last (snd (main env hst))
                   = Some (Printed (error_prefix ++ exn_str (exn r)))))).
Proof.
  pose proof (version_too_old (version_info hst)) as Hold.
  split.
  { intros r Hr. unfold main, unguarded, print. rewrite Hr. reflexivity. }
  intros Hcon. split; [|split; [|split]].
  - intros r Hv Happ.
    assert (Hnew : tuple_lt (as_tuple (version_info hst)) [3; 7]%Z = false).
    { destruct (tuple_lt _ _) eqn:Hlt; [|reflexivity].
      exfalso. apply Hv, Hold. reflexivity. }
    open_main. rewrite Hnew, Happ, !Hcon. reflexivity.
  - intros Happ r. open_main. rewrite Happ. walk hst; no_console Hcon;
      cbn [fst]; try discriminate; intros [= <-]; auto; congruence.
  - walk_main hst; no_console Hcon; cbn [fst]; try discriminate;
      intros _ Hv; apply Hold in Hv; congruence.
  - intros r Hv Happ Hr.
    assert (Hnew : tuple_lt (as_tuple (version_info hst)) [3; 7]%Z = false).
    { destruct (tuple_lt _ _) eqn:Hlt; [|reflexivity].
      exfalso. apply Hv, Hold. reflexivity. }
    open_main. rewrite Hnew, Happ, !Hcon. cbv beta iota zeta.
    destruct Hr as [Hr|[Hr1 Hr2]].
    + rewrite Hr. cbv beta iota zeta. split.
      * intros Hki. rewrite Hki, Hcon. split; reflexivity.
      * intros Hki Hex. rewrite Hki, Hex, Hcon. split; reflexivity.
    + rewrite Hr1, Hr2. cbv beta iota zeta.
      destruct (exn_is_Exception (exn r)) eqn:Hex; cbv beta iota zeta;
        rewrite ?Hex; split.
      * intros Hki. rewrite Hki, Hcon. split; reflexivity.
      * intros Hki _. rewrite Hki, Hcon. split; reflexivity.
      * intros Hki. rewrite Hki, Hcon. split; reflexivity.
      * intros _ Hfalse. discriminate.
Qed.

End EntryPoint.

(** ** The result of [load_model] and the cache *)

Section Loader.

Variable env : collaborators.

(** X14: the boolean that [load_model] returns tells whether a pipeline
    is cached when it returns: [True] with a pipeline, [False] with
    none. *)
Theorem load_model_result_reflects_cache (s : state) (loaded : bool) :
  fst (load_model env s) = Return loaded ->
  (loaded = true
   <-> exists h, caption_pipeline (self (snd (load_model env s))) = Some h).
Proof.
  intros Hres. destruct loaded.
  - split; [intros _|reflexivity].
    destruct (load_model env s) as [r s1] eqn:Hl. cbn [fst snd] in *.
    subst r. exact (load_model_true env s s1 Hl).
  - destruct (load_model_false env s Hres) as (Hc & Hself & _).
    rewrite Hself, Hc. split; [discriminate|]. intros [h Hh]. discriminate.
Qed.

(** X15: a pipeline that [load_model] caches is the one returned by the
    last construction of that call, and that construction was made for
    the model name of the instance and on the device that the instance
    records afterwards: the device attribute tells where the cached
    pipeline lives. *)
Theorem cached_pipeline_is_on_device (s : state) :
  caption_pipeline (self s) = None ->
  fst (load_model env s) = Return true ->
  exists t h,
    hist (snd (load_model env s))
    = t ++ [EvPipeline (model_name (self s))
                       (device (self (snd (load_model env s))))]
    /\ pipeline env t (model_name (self s))
         (device (self (snd (load_model env s)))) = Return h
    /\ caption_pipeline (self (snd (load_model env s))) = Some h
    /\ model_name (self (snd (load_model env s))) = model_name (self s).
Proof.
  intros Hc. unfold_methods. simpl. rewrite Hc. simpl.
  destruct (pipeline env _ _ _) as [h|e1] eqn:Hp1; simpl.
  { intros _. eexists _, h. split; [reflexivity|]. auto. }
  destruct (exn_is_Exception e1); simpl; [|discriminate].
  destruct (device (self s) =? 0)%Z; simpl; [|discriminate].
  destruct (pipeline env _ _ (-1)%Z) as [h|e2] eqn:Hp2; simpl.
  { intros _. eexists _, h. split; [reflexivity|]. auto. }
  destruct (exn_is_Exception e2); simpl; discriminate.
Qed.

(** The model name of one call. *)
Lemma load_model_names (s : state) :
  model_name (self (snd (load_model env s))) = model_name (self s)
  /\ exists evs,
       hist (snd (load_model env s)) = hist s ++ evs
       /\ Forall (fun ev => match ev with
                            | EvPipeline m _ => m = model_name (self s)
                            | _ => True
                            end) evs.
Proof.
  unfold_methods. simpl.
  destruct (caption_pipeline (self s)); simpl.
  { split; [reflexivity|]. eexists. split; [reflexivity|]. repeat constructor. }
  destruct (pipeline env _ _ _) as [h|e1]; simpl.
  { split; [reflexivity|]. eexists. rewrite <- app_assoc.
    split; [reflexivity|]. repeat constructor. }
  destruct (exn_is_Exception e1); simpl.
  2:{ split; [reflexivity|]. eexists. rewrite <- app_assoc.
      split; [reflexivity|]. repeat constructor. }
  destruct (device (self s) =? 0)%Z; simpl.
  2:{ split; [reflexivity|]. eexists. rewrite <- app_assoc.
      split; [reflexivity|]. repeat constructor. }
  destruct (pipeline env _ _ (-1)%Z) as [h|e2]; simpl;
    [|destruct (exn_is_Exception e2); simpl];
    (split; [reflexivity|]); eexists; rewrite <- !app_assoc;
    (split; [reflexivity|]); repeat constructor.
Qed.

(** X16: the model is fixed for the life of the process: after every
    sequence of requests the model name of the instance is the BLIP
    base captioning model, and every construction there has been was
    asked for that model. *)
Theorem model_is_fixed (requests : list (option Image)) :
  model_name (self (serve env requests {| self := init env; hist := [] |}))
  = ascii_text "Salesforce/blip-image-captioning-base"
  /\ Forall (fun ev => match ev with
                       | EvPipeline m _ =>
                           m = ascii_text "Salesforce/blip-image-captioning-base"
                       | _ => True
                       end)
       (hist (serve env requests {| self := init env; hist := [] |})).
Proof.
  set (name := ascii_text "Salesforce/blip-image-captioning-base").
  set (named := fun ev => match ev with
                          | EvPipeline m _ => m = name
                          | _ => True
                          end).
  assert (Hserve : forall requests s,
            model_name (self s) = name -> Forall named (hist s) ->
            model_name (self (serve env requests s)) = name
            /\ Forall named (hist (serve env requests s))).
  { clear requests. induction requests as [|image rest IH]; intros s Hn Hh;
      [auto|].
    cbn [serve]. destruct image as [image|]; [|apply IH; assumption].
    apply IH.
    - rewrite generate_caption_self. rewrite <- Hn.
      apply (load_model_names s).
    - destruct (load_model_names s) as (_ & evs & Hevs & Hall).
      assert (Hload : Forall named (hist (snd (load_model env s)))).
      { rewrite Hevs. apply Forall_app. split; [exact Hh|].
        eapply Forall_impl; [exact Hall|].
        intros [] Hev; cbn in *; congruence. }
      destruct (load_model env s) as [[[|]|e0] s1] eqn:Hl; cbn [snd] in Hload.
      + destruct (generate_caption_tail env image s s1 Hl)
          as (tail & -> & Hcases).
        apply Forall_app. split; [exact Hload|].
        destruct Hcases as [(h & -> & _)|[[-> _]|(h & i & -> & _)]];
          repeat constructor.
      + rewrite generate_caption_some, Hl. exact Hload.
      + rewrite generate_caption_some, Hl. exact Hload. }
  apply Hserve; [reflexivity | constructor].
Qed.

End Loader.

(** ** The further properties at concrete inputs *)

(** An interrupt during inference leaves [generate_caption], and is no
    [Exception]. *)
Lemma generate_caption_raises_no_Exception_witness :
  fst (generate_caption (Stub.failing Stub.KeyboardInterrupt)
         (Some Stub.photo) (Stub.start (Stub.failing Stub.KeyboardInterrupt)))
  = Raise Stub.KeyboardInterrupt
  /\ exn_is_Exception Stub.KeyboardInterrupt = false.
Proof.
  split; [reflexivity|].
  apply (generate_caption_raises_no_Exception
           (Stub.failing Stub.KeyboardInterrupt) (Some Stub.photo)
           (Stub.start (Stub.failing Stub.KeyboardInterrupt))
           Stub.KeyboardInterrupt eq_refl).
Defined.

(** Three more requests on a loaded machine. *)
Lemma cached_pipeline_persists_witness :
  self (serve (Stub.working "a cat") [Some Stub.scan; None; Some Stub.photo]
          MoreStubs.loaded)
  = self MoreStubs.loaded
  /\ constructions
       (hist (serve (Stub.working "a cat")
                [Some Stub.scan; None; Some Stub.photo] MoreStubs.loaded))
     = constructions (hist MoreStubs.loaded).
Proof.
  apply (cached_pipeline_persists (Stub.working "a cat")
           [Some Stub.scan; None; Some Stub.photo] MoreStubs.loaded 0).
  reflexivity.
Defined.

(** No device works: the load-failure message, and the instance as it
    was. *)
Lemma failed_load_is_not_cached_witness :
  fst (generate_caption Stub.all_broken (Some Stub.photo)
         (Stub.start Stub.all_broken)) = Return Msg.load_failed
  /\ self (snd (generate_caption Stub.all_broken (Some Stub.photo)
                  (Stub.start Stub.all_broken)))
     = self (Stub.start Stub.all_broken).
Proof.
  destruct (failed_load_is_not_cached Stub.all_broken Stub.photo
              (Stub.start Stub.all_broken) eq_refl)
    as (Hmsg & Hself & _).
  split; [exact Hmsg | exact Hself].
Defined.

(** A truncated file: the processing error with the text of PIL. *)
Lemma conversion_failure_classified_witness :
  inferences (hist (snd (generate_caption MoreStubs.unconvertible
                           (Some Stub.scan)
                           (Stub.start MoreStubs.unconvertible)))) = []
  /\ fst (generate_caption MoreStubs.unconvertible (Some Stub.scan)
            (Stub.start MoreStubs.unconvertible))
     = Return (Msg.processing_prefix ++ ascii_text "image file is truncated").
Proof.
  destruct (conversion_failure_classified MoreStubs.unconvertible Stub.scan
              (Stub.start MoreStubs.unconvertible)
              (snd (load_model MoreStubs.unconvertible
                      (Stub.start MoreStubs.unconvertible)))
              (Stub.RuntimeError "image file is truncated")
              eq_refl)
    as (Hinf & _ & _ & Hgeneric).
  - vm_compute. discriminate.
  - reflexivity.
  - reflexivity.
  - split; [exact Hinf|]. apply Hgeneric.
    + apply not_occurs_of_contains;
        [exact no_capital_out_of_memory | reflexivity].
    + apply not_occurs_of_contains;
        [exact no_capital_connection | reflexivity].
Defined.

Lemma missing_text_reported_witness :
  fst (generate_caption MoreStubs.malformed (Some Stub.photo)
         (Stub.start MoreStubs.malformed))
  = Return (Msg.processing_prefix ++ ascii_text "'generated_text'").
Proof.
  apply (missing_text_reported MoreStubs.malformed Stub.photo
           (Stub.start MoreStubs.malformed) Stub.first_request 0 Stub.photo
           {[ ascii_text "score" := ascii_text "0.9" ]}
           [ {[ generated_text := ascii_text "a cat" ]} ]
           eq_refl eq_refl).
  apply lookup_singleton_ne. vm_compute. discriminate.
Defined.

(** A caption of three spaces. *)
Lemma blank_caption_is_success_witness :
  fst (generate_caption (Stub.working "   ") (Some Stub.photo)
         (Stub.start (Stub.working "   ")))
  = Return Msg.success_marker.
Proof.
  refine (proj2 (proj1 (blank_caption_is_success (Stub.working "   ")
                          Stub.photo (Stub.start (Stub.working "   "))
                          Stub.first_request 0 Stub.photo
                          {[ generated_text := ascii_text "   " ]} []
                          (ascii_text "   ") eq_refl eq_refl _)) eq_refl).
  apply lookup_singleton_eq.
Defined.

Lemma result_tells_success_witness :
  head (Msg.success_marker ++ ascii_text "a cat") = Some 0x1F3AF
  /\ exists caption,
       Msg.success_marker ++ ascii_text "a cat"
       = Msg.success_marker ++ strip caption.
Proof.
  destruct (result_tells_success (Stub.working "a cat") (Some Stub.photo)
              (Stub.start (Stub.working "a cat"))
              (Msg.success_marker ++ ascii_text "a cat") eq_refl)
    as [Hok|[Hhead _]].
  - exact Hok.
  - vm_compute in Hhead. discriminate Hhead.
Defined.

(** A machine without CUDA constructs on the CPU only. *)
Lemma constructions_follow_device_witness :
  device (self (serve Stub.speechless [Some Stub.scan; Some Stub.photo]
                  {| self := init Stub.speechless; hist := [] |})) = (-1)%Z
  /\ Forall (fun d => d = (-1)%Z)
       (constructions
          (hist (serve Stub.speechless [Some Stub.scan; Some Stub.photo]
                   {| self := init Stub.speechless; hist := [] |}))).
Proof.
  apply (proj2 (proj2 (constructions_follow_device Stub.speechless
                         [Some Stub.scan; Some Stub.photo]))).
  reflexivity.
Defined.

(** Two callers racing on a loaded machine. *)
Lemma cached_callers_never_construct_witness :
  self (snd (Threads.run (Stub.working "a cat") Threads.race
               (replicate 2 Threads.AtEntry) MoreStubs.loaded))
  = self MoreStubs.loaded
  /\ constructions
       (hist (snd (Threads.run (Stub.working "a cat") Threads.race
                     (replicate 2 Threads.AtEntry) MoreStubs.loaded)))
     = constructions (hist MoreStubs.loaded).
Proof.
  destruct (cached_callers_never_construct (Stub.working "a cat")
              Threads.race 2 MoreStubs.loaded 0 eq_refl)
    as (Hself & Hcons & _).
  split; [exact Hself | exact Hcons].
Defined.

Lemma host_of_console_works (v : Entry.version) (served : option Entry.raised) :
  Entry.console_works (Entry.host_of v served).
Proof. intros seen line. reflexivity. Defined.

Lemma python_3_11_4_supported : ~ Entry.below_3_7 MoreStubs.python_3_11_4.
Proof. intros [H|[_ H]]; vm_compute in H; discriminate H. Defined.

(** Python 3.6.9 is refused; on 3.7.0 the server is launched. *)
Lemma main_version_gate_witness :
  Entry.main Stub.speechless (Entry.host_of MoreStubs.python_3_6_9 None)
  = (Entry.Exited 1,
     [Entry.Printed Entry.banner; Entry.Printed Entry.rule;
      Entry.Printed Entry.starting; Entry.Printed Entry.too_old])
  /\ Entry.launches
       (snd (Entry.main Stub.speechless
               (Entry.host_of MoreStubs.python_3_7_0 None)))
     = [(true, ascii_text "0.0.0.0", 7860%Z)].
Proof.
  split.
  - apply (proj1 (proj2 (main_version_gate Stub.speechless
                           (Entry.host_of MoreStubs.python_3_6_9 None)))).
    + right. split; reflexivity.
    + apply host_of_console_works.
  - apply (proj1 (proj2 (proj2 (main_version_gate Stub.speechless
                                  (Entry.host_of MoreStubs.python_3_7_0 None))))).
    + intros [H|[_ H]]; vm_compute in H; discriminate H.
    + apply host_of_console_works.
    + reflexivity.
    + reflexivity.
Defined.

(** A terminal that cannot show the banner; a runtime in which the
    application cannot be constructed; Ctrl-C while serving; and a port
    that is taken. *)
Lemma main_endings_witness :
  Entry.main Stub.speechless MoreStubs.ascii_terminal
  = (Entry.Propagated MoreStubs.UnicodeEncodeError, [])
  /\ Entry.main Stub.speechless MoreStubs.broken_runtime
     = (Entry.Propagated MoreStubs.no_cuda_runtime,
        [Entry.Printed Entry.banner; Entry.Printed Entry.rule;
         Entry.Printed Entry.starting])
  /\ fst (Entry.main Stub.speechless
            (Entry.host_of MoreStubs.python_3_11_4
               (Some MoreStubs.interrupt)))
     = Entry.Returned
  /\ fst (Entry.main Stub.speechless
            (Entry.host_of MoreStubs.python_3_11_4
               (Some MoreStubs.port_in_use)))
     = Entry.Exited 1.
Proof.
  split; [|split; [|split]].
  - apply (proj1 (main_endings Stub.speechless MoreStubs.ascii_terminal)).
    reflexivity.
  - apply (proj1 (proj2 (main_endings Stub.speechless MoreStubs.broken_runtime)
                    (fun seen line => eq_refl))).
    + exact python_3_11_4_supported.
    + reflexivity.
  - refine (proj1 (proj1 (proj2 (proj2 (proj2
              (proj2 (main_endings Stub.speechless
                        (Entry.host_of MoreStubs.python_3_11_4
                           (Some MoreStubs.interrupt)))
                 (host_of_console_works _ _))))
              MoreStubs.interrupt python_3_11_4_supported eq_refl
              (or_intror (conj eq_refl eq_refl)))
            eq_refl)).
  - refine (proj1 (proj2 (proj2 (proj2 (proj2
              (proj2 (main_endings Stub.speechless
                        (Entry.host_of MoreStubs.python_3_11_4
                           (Some MoreStubs.port_in_use)))
                 (host_of_console_works _ _))))
              MoreStubs.port_in_use python_3_11_4_supported eq_refl
              (or_intror (conj eq_refl eq_refl)))
            eq_refl eq_refl)).
Defined.

(** The GPU is broken: [True], and the pipeline that is cached is the
    second one constructed, on the CPU. *)
Lemma load_model_result_reflects_cache_witness :
  exists h,
    caption_pipeline
      (self (snd (load_model Stub.gpu_broken (Stub.start Stub.gpu_broken))))
    = Some h.
Proof.
  apply (proj1 (load_model_result_reflects_cache Stub.gpu_broken
                  (Stub.start Stub.gpu_broken) true eq_refl)).
  reflexivity.
Defined.

Lemma cached_pipeline_is_on_device_witness :
  exists t h,
    hist (snd (load_model Stub.gpu_broken (Stub.start Stub.gpu_broken)))
    = t ++ [EvPipeline (model_name (self (Stub.start Stub.gpu_broken)))
                       (device (self (snd (load_model Stub.gpu_broken
                                             (Stub.start Stub.gpu_broken)))))]
    /\ pipeline Stub.gpu_broken t
         (model_name (self (Stub.start Stub.gpu_broken)))
         (device (self (snd (load_model Stub.gpu_broken
                               (Stub.start Stub.gpu_broken))))) = Return h
    /\ caption_pipeline
         (self (snd (load_model Stub.gpu_broken (Stub.start Stub.gpu_broken))))
       = Some h
    /\ model_name
         (self (snd (load_model Stub.gpu_broken (Stub.start Stub.gpu_broken))))
       = model_name (self (Stub.start Stub.gpu_broken)).
Proof.
  apply (cached_pipeline_is_on_device Stub.gpu_broken
           (Stub.start Stub.gpu_broken) eq_refl eq_refl).
Defined.
